(** * SupabaseBench: a shallow embedding of [bench.js]

    The harness creates [CLIENT_COUNT] Supabase clients, subscribes each of
    them to the change feed of table [bench], upserts one row per client
    every tick and measures the round trip of the echoed row.  This file
    embeds the functions of [src/supabase-bench/bench.js] and proves the
    properties claimed about them.

    Modelling conventions.
    - A JavaScript number is [NaN] or an integer: [num].  The integers stand
      for the integer-valued doubles up to [2^53] in absolute value, where
      the double operations used here ([+], [-], [%], [++]) are exact,
      [parseInt] reads a numeral exactly and [String(n)] is the decimal
      numeral.  Outside this range the source rounds and the model does
      not; the statements about the value of a number say so where it
      matters.  The two places where the source leaves the integers,
      [(p/100) * sorted.length] in [pct] and [sum / lat.length] in
      [printSummary], go through [Binary64], a model of round-to-nearest-even
      on 53 bits.
    - A JavaScript string is a [string]; its characters are the code units
      below 256.
    - Arrays live in a store ([heap]) and are passed by reference ([loc]), so
      that [const lat = stats.latencies] aliases the array of [stats] and
      [Array.from] makes a new one.
    - Statements run in the monad [JS]: state passing over [World] with
      JavaScript exceptions ([Throw]).  What the outside world decides
      ([Date.now()], whether [createClient] returns or throws, whether an
      awaited [upsert] resolves or rejects, which callbacks run while the
      loop is suspended at an [await], the turns of another batch among
      them) is an argument of the embedded function.
    - Limits of the engine (the length of an array, the number of arguments
      of [Math.min(...lat)]) are not modelled, except where a statement says
      so. *)

From Stdlib Require Import ZArith Lia Ascii String DecimalString DecimalZ.
From Stdlib Require Import Sorting.Sorted Sorting.Permutation.
From stdpp Require Import base option list sorting gmap strings.

Local Open Scope string_scope.
Local Open Scope Z_scope.

(** ** Numbers *)

Inductive num : Type :=
| NaN
| Num (z : Z).

#[global] Instance num_eq_dec : EqDecision num.
Proof. solve_decision. Defined.

Module JsNum.

Definition sub (a b : num) : num :=
  match a, b with
  | Num x, Num y => Num (x - y)
  | _, _ => NaN
  end.

Definition add (a b : num) : num :=
  match a, b with
  | Num x, Num y => Num (x + y)
  | _, _ => NaN
  end.

Definition mul (a b : num) : num :=
  match a, b with
  | Num x, Num y => Num (x * y)
  | _, _ => NaN
  end.

(** [a % b]: the remainder has the sign of the dividend, and [x % 0] is
    [NaN]. *)
Definition rem (a b : num) : num :=
  match a, b with
  | Num x, Num y => if y =? 0 then NaN else Num (Z.rem x y)
  | _, _ => NaN
  end.

(** [a === b] on numbers: [NaN] is equal to nothing. *)
Definition strict_eq (a b : num) : bool :=
  match a, b with
  | Num x, Num y => x =? y
  | _, _ => false
  end.

Definition truthy (a : num) : bool :=
  match a with
  | NaN => false
  | Num z => negb (z =? 0)
  end.

(** [String(n)] for [NaN] and the integers: the decimal numeral, which is
    what the source prints for an integer below [10^21] in absolute
    value. *)
Definition to_string (a : num) : string :=
  match a with
  | NaN => "NaN"
  | Num z => NilEmpty.string_of_int (Z.to_int z)
  end.

End JsNum.

(** ** [parseInt(s, 10)] *)

Module ParseInt.

(** White space and line terminators that [parseInt] skips, among the
    code units below 256: TAB, LF, VT, FF, CR, SP and NBSP. *)
Definition is_white (c : ascii) : bool :=
  let n := nat_of_ascii c in
  ((9 <=? n) && (n <=? 13) || (n =? 32) || (n =? 160))%nat.

Fixpoint skip_white (s : string) : string :=
  match s with
  | String c s' => if is_white c then skip_white s' else s
  | EmptyString => s
  end.

Definition digit (c : ascii) : option Z :=
  let n := nat_of_ascii c in
  if ((48 <=? n) && (n <=? 57))%nat then Some (Z.of_nat n - 48) else None.

(** The digits at the front of [s], up to the first character that is not
    a digit of radix 10. *)
Fixpoint leading_digits (s : string) : list Z :=
  match s with
  | String c s' =>
      match digit c with
      | Some d => d :: leading_digits s'
      | None => []
      end
  | EmptyString => []
  end.

Definition value_of (ds : list Z) : Z :=
  fold_left (fun acc d => 10 * acc + d) ds 0.

(** The sign and what follows it. *)
Definition split_sign (s : string) : Z * string :=
  match s with
  | String "-"%char s' => (-1, s')
  | String "+"%char s' => (1, s')
  | _ => (1, s)
  end.

(** The value of the numeral is exact here; [parseInt] returns the nearest
    double, which is the same number up to [2^53] in absolute value. *)
Definition parseInt (s : string) : num :=
  let '(sign, body) := split_sign (skip_white s) in
  match leading_digits body with
  | [] => NaN
  | ds => Num (sign * value_of ds)
  end.

End ParseInt.

(** ** Line 12: [CLIENT_COUNT]

    [process.argv[4]] is a string, or [undefined] when the argument is not
    given: [option string].  [CLIENT_COUNT_ARG || '1000'] takes the default
    for [undefined] and for the empty string. *)

Definition or_default (arg : option string) (d : string) : string :=
  match arg with
  | None => d
  | Some "" => d
  | Some s => s
  end.

Definition CLIENT_COUNT (CLIENT_COUNT_ARG : option string) : num :=
  ParseInt.parseInt (or_default CLIENT_COUNT_ARG "1000").

(** ** Doubles that are not integers

    A finite double is [mant * 2^expo].  The operations round to nearest,
    ties to even, on 53 significant bits, as IEEE 754 binary64 does in its
    normal range; overflow and subnormal numbers are out of reach of the
    operands of the source (quotients and products of integers below
    [2^53]). *)

Module Binary64.

Record dyadic : Type := Dy { mant : Z; expo : Z }.

(** [round_nat a = (q, k)]: the natural number [a] rounded to 53 bits is
    [q * 2^k]. *)
Definition round_nat (a : Z) : Z * Z :=
  let k := Z.log2 a - 52 in
  if k <=? 0 then (a, 0)
  else
    let q := Z.shiftr a k in
    let r := Z.land a (Z.ones k) in
    let half := Z.shiftl 1 (k - 1) in
    if r <? half then (q, k)
    else if half <? r then (q + 1, k)
    else if Z.even q then (q, k) else (q + 1, k).

Definition round (x : dyadic) : dyadic :=
  let '(q, k) := round_nat (Z.abs (mant x)) in
  Dy (Z.sgn (mant x) * q) (expo x + k).

(** [a / b] for integers, correctly rounded: the quotient is computed on
    at least 56 bits, with a sticky bit for the remainder. *)
Definition div (a : Z) (b : positive) : dyadic :=
  let s := Z.max 0 (56 + Z.log2 (Z.pos b) - Z.log2 (Z.abs a)) in
  let n := Z.shiftl (Z.abs a) s in
  let q := n / Z.pos b in
  let sticky := if n mod Z.pos b =? 0 then 0 else 1 in
  round (Dy (Z.sgn a * (2 * q + sticky)) (- s - 1)).

(** An integer below [2^53] is a double. *)
Definition of_int (z : Z) : dyadic := Dy z 0.

(** [x / b] for a double [x] and an integer [b]: rounding does not depend on
    the scale. *)
Definition div_by (x : dyadic) (b : positive) : dyadic :=
  let d := div (mant x) b in
  Dy (mant d) (expo d + expo x).

(** [x * n] for an integer [n]. *)
Definition mul_int (x : dyadic) (n : Z) : dyadic :=
  round (Dy (mant x * n) (expo x)).

(** [Math.floor(x)]. *)
Definition floor (x : dyadic) : Z :=
  if 0 <=? expo x then Z.shiftl (mant x) (expo x)
  else Z.shiftr (mant x) (- expo x).

(** [x.toFixed(1)]: the integer [n] with [n / 10] nearest to [|x|], the
    larger one on a tie, printed with the point before its last digit and
    the sign of [x] in front. *)
Definition tenths (x : dyadic) : Z :=
  let a := Z.abs (mant x) in
  if 0 <=? expo x then Z.shiftl (10 * a) (expo x)
  else Z.shiftr (20 * a + Z.shiftl 1 (- expo x)) (1 - expo x).

Definition toFixed1 (x : dyadic) : string :=
  let n := tenths x in
  (if mant x <? 0 then "-" else "")
    ++ NilEmpty.string_of_int (Z.to_int (n / 10)) ++ "."
    ++ NilEmpty.string_of_int (Z.to_int (n mod 10)).

End Binary64.

Coercion Binary64.of_int : Z >-> Binary64.dyadic.

(** ** Values of a change payload

    A payload is what the realtime client parsed from JSON: [undefined]
    where nothing was delivered, [null], booleans, numbers, strings, objects
    and arrays.  [VNum] holds the numbers of type [num]; any other number
    (one with a fraction, or one that [String] prints with an exponent) is
    a [VDec], given by the text [String] prints for it.  Such a number is
    not zero. *)

#[warnings="-register-all"]
Inductive value : Type :=
| VUndefined
| VNull
| VBool (b : bool)
| VNum (n : num)
| VStr (s : string)
| VObj (fields : gmap string value)
| VDec (text : string)
| VArr (items : list value).

Module JsValue.

(** ToBoolean. *)
Definition truthy (v : value) : bool :=
  match v with
  | VUndefined | VNull => false
  | VBool b => b
  | VNum n => JsNum.truthy n
  | VStr s => negb (String.eqb s "")
  | VObj _ | VDec _ | VArr _ => true
  end.

(** [v === s] for a string [s]: only the same string is equal. *)
Definition strict_eq_str (v : value) (s : string) : bool :=
  match v with
  | VStr t => String.eqb t s
  | _ => false
  end.

(** ToString throws a [TypeError] on a value that has no primitive: a
    parsed object with a key [toString] of its own, whose value is no
    function, and an array that holds such a value. *)
Fixpoint unprintable (v : value) : bool :=
  match v with
  | VObj fields =>
      match fields !! "toString" with Some _ => true | None => false end
  | VArr items => existsb unprintable items
  | _ => false
  end.

(** ToString of a value that has a primitive, as [parseInt] applies it to
    its argument: an array is joined with commas, [null] and [undefined]
    giving the empty string there. *)
Fixpoint to_string (v : value) : string :=
  match v with
  | VUndefined => "undefined"
  | VNull => "null"
  | VBool true => "true"
  | VBool false => "false"
  | VNum n => JsNum.to_string n
  | VStr s => s
  | VObj _ => "[object Object]"
  | VDec text => text
  | VArr items =>
      (fix join (l : list value) : string :=
         match l with
         | [] => ""
         | x :: rest =>
             (match x with
              | VUndefined | VNull => ""
              | _ => to_string x
              end)
             ++ (match rest with
                 | [] => ""
                 | _ :: _ => "," ++ join rest
                 end)
         end) items
  end.

(** What [parseInt(v, 10)] returns when ToString does not throw. *)
Definition parseInt (v : value) : num := ParseInt.parseInt (to_string v).

End JsValue.

(** ** The world: [stats], the array store and the console *)

Definition loc : Type := nat.

Record World : Type := mkWorld {
  sent : Z;                        (* stats.sent *)
  received : Z;                    (* stats.received *)
  latencies : loc;                 (* stats.latencies, a reference *)
  errors : Z;                      (* stats.errors *)
  heap : gmap loc (list num);      (* the arrays *)
  stdout : list string;            (* lines of console.log *)
  stderr : list string             (* lines of console.error *)
}.

(** The array a reference points to. *)
Definition deref (w : World) (l : loc) : list num := heap w !!! l.

(** The latency samples recorded so far. *)
Definition samples (w : World) : list num := deref w (latencies w).

(** Lines 14-19: [stats] at program start. *)
Definition initial : World :=
  mkWorld 0 0 0%nat 0 {[ 0%nat := [] ]} [] [].

(** ** The monad of statements *)

Inductive exn : Type :=
| TypeError (msg : string)
| RangeError (msg : string)
| PlainError (msg : string)       (* [new Error(msg)] *)
| Rejection (reason : string).

Inductive completion (A : Type) : Type :=
| Normal (a : A)
| Throw (e : exn).
Arguments Normal {A} a.
Arguments Throw {A} e.

Definition JS (A : Type) : Type := World -> completion A * World.

Definition ret {A} (a : A) : JS A := fun w => (Normal a, w).

Definition throw {A} (e : exn) : JS A := fun w => (Throw e, w).

Definition bind {A B} (m : JS A) (k : A -> JS B) : JS B :=
  fun w =>
    match m w with
    | (Normal a, w') => k a w'
    | (Throw e, w') => (Throw e, w')
    end.

(** [try { body } catch (e) { handler }]: what [body] did to the world
    before it threw stays done. *)
Definition try_catch {A} (body : JS A) (handler : exn -> JS A) : JS A :=
  fun w =>
    match body w with
    | (Normal a, w') => (Normal a, w')
    | (Throw e, w') => handler e w'
    end.

Definition gets {A} (f : World -> A) : JS A := fun w => (Normal (f w), w).

Definition modify (f : World -> World) : JS unit := fun w => (Normal tt, f w).

(** The world a statement leaves. *)
Definition exec {A} (m : JS A) (w : World) : World := snd (m w).

#[global] Instance JS_ret : MRet JS := @ret.
#[global] Instance JS_bind : MBind JS := fun A B k m => bind m k.

(** [for (let i = 0; i < n; i++) body(i)], counting up from [i]. *)
Fixpoint for_from (i : nat) (n : nat) (body : nat -> JS unit) : JS unit :=
  match n with
  | O => ret tt
  | S n' => body i;; for_from (S i) n' body
  end.

(** The number of turns of [for (let i = 0; i < count; i++)]: none when
    [count] is [NaN], zero or negative. *)
Definition turns (count : num) : nat :=
  match count with
  | NaN => 0%nat
  | Num z => Z.to_nat z
  end.

Definition for_loop (count : num) (body : nat -> JS unit) : JS unit :=
  for_from 0 (turns count) body.

(** ** Arrays *)

Definition set_heap (h : gmap loc (list num)) (w : World) : World :=
  mkWorld (sent w) (received w) (latencies w) (errors w) h (stdout w) (stderr w).

(** [arr.length] *)
Definition array_length (arr : loc) : JS nat :=
  gets (fun w => length (deref w arr)).

(** [arr.push(x)] *)
Definition array_push (arr : loc) (x : num) : JS unit :=
  modify (fun w => set_heap (<[arr := (deref w arr ++ [x])%list]> (heap w)) w).

(** [Array.from(arr)]: a new array with the elements of [arr]. *)
Definition array_from (arr : loc) : JS loc :=
  fun w =>
    let copy := fresh (dom (heap w)) in
    (Normal copy, set_heap (<[copy := deref w arr]> (heap w)) w).

(** [l[i]], [undefined] outside the array. *)
Definition element (l : list num) (i : Z) : value :=
  if i <? 0 then VUndefined
  else match l !! Z.to_nat i with
       | Some x => VNum x
       | None => VUndefined
       end.

Definition array_get (arr : loc) (i : Z) : JS value :=
  gets (fun w => element (deref w arr) i).

(** [Array.prototype.sort] with a comparator is a stable sort: [x] stays
    before [y] unless [cmp(x, y) > 0]; a comparator result [NaN] counts as
    [+0].  The model is the stable insertion sort.  It leaves the array
    every engine leaves when the comparator is consistent, as
    [(a,b)=>a-b] is on numbers other than [NaN].  With a [NaN] among the
    elements the comparator is not consistent, the order is the engine's
    own, and all that is used of the result is that it rearranges the
    elements. *)
Definition comes_after (cmp : num -> num -> num) (x y : num) : bool :=
  match cmp x y with
  | NaN => false
  | Num v => 0 <? v
  end.

Fixpoint insert_by (cmp : num -> num -> num) (x : num) (l : list num) : list num :=
  match l with
  | [] => [x]
  | y :: l' => if comes_after cmp x y then y :: insert_by cmp x l' else x :: l
  end.

Definition sort_by (cmp : num -> num -> num) (l : list num) : list num :=
  foldr (insert_by cmp) [] l.

(** [arr.sort(cmp)] sorts in place and returns [arr]. *)
Definition array_sort (arr : loc) (cmp : num -> num -> num) : JS loc :=
  fun w =>
    (Normal arr, set_heap (<[arr := sort_by cmp (deref w arr)]> (heap w)) w).

(** ** Lines 95-100: [pct] *)

(** The comparator [(a,b)=>a-b] *)
Definition js_asc (a b : num) : num := JsNum.sub a b.

(** [Math.floor((p/100) * len)] *)
Definition pct_index (p : Binary64.dyadic) (len : nat) : Z :=
  Binary64.floor (Binary64.mul_int (Binary64.div_by p 100) (Z.of_nat len)).

Definition pct (arr : loc) (p : Binary64.dyadic) : JS value :=
  len ← array_length arr;
  if (len =? 0)%nat then ret (VNum (Num 0))
  else
    copy ← array_from arr;
    sorted ← array_sort copy js_asc;
    n ← array_length sorted;
    let idx := pct_index p n in
    array_get sorted (Z.min idx (Z.of_nat n - 1)).

(** ** Lines 102-109: [printSummary] *)

Definition console_log (line : string) : JS unit :=
  modify (fun w =>
    mkWorld (sent w) (received w) (latencies w) (errors w) (heap w)
            ((stdout w ++ [line])%list) (stderr w)).

Definition console_error (line : string) : JS unit :=
  modify (fun w =>
    mkWorld (sent w) (received w) (latencies w) (errors w) (heap w)
            (stdout w) ((stderr w ++ [line])%list)).

(** [Math.min(x, y)] and [Math.max(x, y)]: [NaN] as soon as one is. *)
Definition math_min (a b : num) : num :=
  match a, b with
  | Num x, Num y => Num (Z.min x y)
  | _, _ => NaN
  end.

Definition math_max (a b : num) : num :=
  match a, b with
  | Num x, Num y => Num (Z.max x y)
  | _, _ => NaN
  end.

(** [(lat.reduce((a,b)=>a+b,0)/lat.length).toFixed(1)] for [lat] not
    empty.  The sum is exact, as the additions of [reduce] are while the
    partial sums stay within [2^53]; the quotient is rounded once. *)
Definition average (x : num) (rest : list num) : string :=
  match fold_left JsNum.add (x :: rest) (Num 0) with
  | NaN => "NaN"
  | Num sum => Binary64.toFixed1 (Binary64.div sum (Pos.of_succ_nat (length rest)))
  end.

(** The four derived fields, as [printSummary] computes them. *)
Record Derived : Type := mkDerived {
  d_avg : value;
  d_min : value;
  d_max : value;
  d_p95 : value
}.

Definition derive : JS Derived :=
  lat ← gets latencies;
  elems ← gets (fun w => deref w lat);
  let avg := match elems with
             | [] => VStr "-"
             | x :: rest => VStr (average x rest)
             end in
  let min := match elems with
             | [] => VStr "-"
             | x :: rest => VNum (fold_left math_min rest x)
             end in
  let max := match elems with
             | [] => VStr "-"
             | x :: rest => VNum (fold_left math_max rest x)
             end in
  p95 ← pct lat 95;
  ret (mkDerived avg min max p95).

Definition count_string (n : Z) : string := JsNum.to_string (Num n).

Definition summary_line (w : World) (d : Derived) : string :=
  "SENT:" ++ count_string (sent w) ++ " RECV:" ++ count_string (received w)
  ++ " ERR:" ++ count_string (errors w)
  ++ " | avg:" ++ JsValue.to_string (d_avg d) ++ "ms min:"
  ++ JsValue.to_string (d_min d) ++ "ms max:" ++ JsValue.to_string (d_max d)
  ++ "ms p95:" ++ JsValue.to_string (d_p95 d) ++ "ms samples:"
  ++ count_string (Z.of_nat (length (samples w))).

Definition printSummary : JS unit :=
  d ← derive;
  line ← gets (fun w => summary_line w d);
  console_log line.

(** ** Property access *)

(** [v.key]: a [TypeError] on [undefined] and [null]; the keys read by the
    source ([new], [id], [_bench_sent_ts]) are no properties of strings,
    numbers, booleans or arrays. *)
Definition get_prop (v : value) (key : string) : JS value :=
  match v with
  | VUndefined | VNull =>
      throw (TypeError ("Cannot read properties of " ++ JsValue.to_string v))
  | VObj fields => ret (default VUndefined (fields !! key))
  | _ => ret VUndefined
  end.

(** [v?.key] *)
Definition get_prop_opt (v : value) (key : string) : JS value :=
  match v with
  | VUndefined | VNull => ret VUndefined
  | _ => get_prop v key
  end.

(** ** Lines 21-23: [makeId] *)

Definition makeId (i : nat) : string :=
  "client-" ++ JsNum.to_string (Num (Z.of_nat i)).

(** ** Lines 37-51: the [postgres_changes] handler of the client [myId]

    [now] is what [Date.now()] returns if the handler gets that far. *)

Definition incr_received : JS unit :=
  modify (fun w =>
    mkWorld (sent w) (received w + 1) (latencies w) (errors w) (heap w)
            (stdout w) (stderr w)).

Definition incr_sent : JS unit :=
  modify (fun w =>
    mkWorld (sent w + 1) (received w) (latencies w) (errors w) (heap w)
            (stdout w) (stderr w)).

Definition incr_errors : JS unit :=
  modify (fun w =>
    mkWorld (sent w) (received w) (latencies w) (errors w + 1) (heap w)
            (stdout w) (stderr w)).

(** [parseInt(v, 10)] *)
Definition parse_int (v : value) : JS num :=
  if JsValue.unprintable v
  then throw (TypeError "Cannot convert object to primitive value")
  else ret (JsValue.parseInt v).

(** Lines 43-46, the body of the [if]. *)
Definition record_sample (now : Z) (ts : value) : JS unit :=
  sendTs ← parse_int ts;
  let rtt := JsNum.sub (Num now) sendTs in
  incr_received;;
  lat ← gets latencies;
  array_push lat rtt.

(** Lines 41-47, the body of the [try]. *)
Definition on_change_body (myId : string) (now : Z) (payload : value) : JS unit :=
  rec ← get_prop_opt payload "new";
  if JsValue.truthy rec then
    id ← get_prop rec "id";
    if JsValue.strict_eq_str id myId then
      ts ← get_prop rec "_bench_sent_ts";
      if JsValue.truthy ts then record_sample now ts else ret tt
    else ret tt
  else ret tt.

Definition on_change (myId : string) (now : Z) (payload : value) : JS unit :=
  try_catch (on_change_body myId now payload) (fun _ => incr_errors).

(** ** What the outside world decides *)

(** An awaited [upsert] resolves, with the response of the library, or
    rejects.  The source does not look at the response: a write the
    backend refused resolves with a response whose [error] is set. *)
Inductive settled : Type :=
| Resolved (response : value)
| Rejected (e : exn).

(** What can run while [run] or a batch of writes is suspended at an
    [await]: the handler of client [target] receives a change; the report
    timer of line 92 fires; or another batch, started by the write timer
    while this one is suspended, goes on: the write it awaits settles
    (lines 80 and 82), or it leaves its loop and reaches line 86. *)
Inductive callback : Type :=
| Change (target : nat) (now : Z) (payload : value)
| ReportTimer
| OtherWrite (s : settled)
| OtherBatchEnd.

(** One [await sb.from('bench').upsert(...)]: the callbacks that run before
    the promise settles, and how it settles. *)
Definition awaited : Type := list callback * settled.

(** A macrotask of the event loop after [run] has returned: a callback, or the
    write timer of line 70 with what happens at the [await] of each turn. *)
Inductive task : Type :=
| Callback (c : callback)
| WriteTimer (oracle : nat -> awaited).

(** [createClient] returns a client, or throws: the library refuses a URL
    that is no HTTP or HTTPS URL. *)
Inductive creation : Type :=
| Created
| CreationFailed (e : exn).

Definition exn_message (e : exn) : string :=
  match e with
  | TypeError msg => "TypeError: " ++ msg
  | RangeError msg => "RangeError: " ++ msg
  | PlainError msg => "Error: " ++ msg
  | Rejection reason => reason
  end.

Section Harness.

(** The value of the constant [CLIENT_COUNT]. *)
Variable count : num.

(** Line 86: [stats.sent % (CLIENT_COUNT * 5) === 0] *)
Definition summary_due (w : World) : bool :=
  JsNum.strict_eq (JsNum.rem (Num (sent w)) (JsNum.mul count (Num 5))) (Num 0).

(** Lines 86-88, the end of a batch. *)
Definition batch_end : JS unit :=
  due ← gets summary_due;
  (if due : bool then printSummary else ret tt).

(** A callback runs to completion; a change for a client that was never
    created has no handler to run. *)
Definition run_callback (c : callback) : JS unit :=
  match c with
  | Change target now payload =>
      if (target <? turns count)%nat
      then on_change (makeId target) now payload
      else ret tt
  | ReportTimer => printSummary
  | OtherWrite (Resolved _) => incr_sent
  | OtherWrite (Rejected _) => incr_errors
  | OtherBatchEnd => batch_end
  end.

Fixpoint run_callbacks (cs : list callback) : JS unit :=
  match cs with
  | [] => ret tt
  | c :: cs' => run_callback c;; run_callbacks cs'
  end.

(** [await sb.from('bench').upsert(...)] *)
Definition await_upsert (a : awaited) : JS unit :=
  run_callbacks (fst a);;
  match snd a with
  | Resolved _ => ret tt
  | Rejected e => throw e
  end.

(** Lines 73-83, one turn of the write loop. *)
Definition write_turn (oracle : nat -> awaited) (i : nat) : JS unit :=
  try_catch (await_upsert (oracle i);; incr_sent) (fun _ => incr_errors).

(** Lines 72-84, the write loop. *)
Definition write_loop (oracle : nat -> awaited) : JS unit :=
  for_loop count (write_turn oracle).

(** Lines 70-89, the callback of the write timer. *)
Definition tick (oracle : nat -> awaited) : JS unit :=
  write_loop oracle;;
  batch_end.

(** While [run] creates the clients, no timer is set yet and only the
    clients up to the current one are subscribed. *)
Definition subscribed (i : nat) (c : callback) : bool :=
  match c with
  | Change target _ _ => (target <=? i)%nat
  | ReportTimer | OtherWrite _ | OtherBatchEnd => false
  end.

(** Lines 58-64, the initial upsert of client [i]. *)
Definition initial_upsert (oracle : nat -> awaited) (i : nat) : JS unit :=
  try_catch
    (await_upsert (List.filter (subscribed i) (fst (oracle i)), snd (oracle i)))
    (fun e => console_error ("initial upsert error " ++ exn_message e);;
              incr_errors).

(** Line 28: [new Array(CLIENT_COUNT)] *)
Definition new_clients : JS unit :=
  match count with
  | NaN => throw (RangeError "Invalid array length")
  | Num z =>
      if (0 <=? z) && (z <? 2 ^ 32) then ret tt
      else throw (RangeError "Invalid array length")
  end.

(** Line 32: [createClient(SUPABASE_URL, SUPABASE_KEY, ...)] *)
Definition create_client (c : creation) : JS unit :=
  match c with
  | Created => ret tt
  | CreationFailed e => throw e
  end.

(** Lines 30-65, one turn of the loop of [run]: the client is created and
    subscribed (from here on its handler can run, see [subscribed]), then
    its first row is written. *)
Definition setup_client (created : nat -> creation)
    (oracle : nat -> awaited) (i : nat) : JS unit :=
  create_client (created i);;
  initial_upsert oracle i.

(** Lines 25-93: [run], up to the point where the timers are set. *)
Definition run (url : string) (created : nat -> creation)
    (oracle : nat -> awaited) : JS unit :=
  console_log ("Starting benchmark: " ++ JsNum.to_string count
               ++ " clients => " ++ url);;
  new_clients;;
  for_loop count (setup_client created oracle);;
  console_log "All clients created and subscribed.".

Definition run_task (t : task) : JS unit :=
  match t with
  | Callback c => run_callback c
  | WriteTimer oracle => tick oracle
  end.

Fixpoint run_tasks (ts : list task) : JS unit :=
  match ts with
  | [] => ret tt
  | t :: ts' => run_task t;; run_tasks ts'
  end.

(** Line 111 and the event loop: [run().catch(...)] ends the process when
    [run] throws; otherwise the timers and the handlers take over. *)
Definition main (url : string) (created : nat -> creation)
    (startup : nat -> awaited) (ts : list task) : World -> World :=
  fun w =>
    match run url created startup w with
    | (Normal _, w') => exec (run_tasks ts) w'
    | (Throw e, w') => exec (console_error (exn_message e)) w'
    end.

End Harness.

(** ** Lines 7-12 and 111: the program

    The arguments are [process.argv[2..4]], each a string or [undefined].
    Without a URL or a key the program prints the usage and exits before
    anything else happens. *)

Definition falsy_arg (arg : option string) : bool :=
  match arg with
  | None => true
  | Some s => String.eqb s ""
  end.

Definition usage : string :=
  "Usage: node bench.js <SUPABASE_URL> <SUPABASE_ANON_KEY> <CLIENT_COUNT>".

Definition bench (SUPABASE_URL SUPABASE_KEY CLIENT_COUNT_ARG : option string)
    (created : nat -> creation) (startup : nat -> awaited) (ts : list task)
  : World -> World :=
  if falsy_arg SUPABASE_URL || falsy_arg SUPABASE_KEY
  then exec (console_error usage)
  else main (CLIENT_COUNT CLIENT_COUNT_ARG) (default "" SUPABASE_URL)
         created startup ts.

(** ** Reading a change payload, for the statements

    [payload.new.id] and [payload.new._bench_sent_ts] as plain functions:
    [undefined] wherever the path does not exist. *)

Definition field (v : value) (key : string) : value :=
  match v with
  | VObj fields => default VUndefined (fields !! key)
  | _ => VUndefined
  end.

Definition event_id (payload : value) : value :=
  field (field payload "new") "id".

Definition event_ts (payload : value) : value :=
  field (field payload "new") "_bench_sent_ts".

(** A row of table [bench] as the change feed delivers it. *)
Definition change_of (id : string) (ts : value) : value :=
  VObj {[ "new" := VObj (<["id" := VStr id]> {[ "_bench_sent_ts" := ts ]}) ]}.

(** The numbers that ToString prints for [v] are integers that the doubles
    hold exactly, so that [JsValue.to_string v] is the text the engine
    gives. *)
Fixpoint prints_exactly (v : value) : bool :=
  match v with
  | VNum (Num z) => Z.abs z <=? 2 ^ 53
  | VArr items => forallb prints_exactly items
  | _ => true
  end.

(** The changes on which the handler of [myId] enters its [catch]: the
    row is the client's own, the timestamp is truthy, and [parseInt]
    cannot convert it. *)
Definition handler_throws (myId : string) (payload : value) : bool :=
  JsValue.strict_eq_str (event_id payload) myId
  && JsValue.truthy (event_ts payload)
  && JsValue.unprintable (event_ts payload).

(** The world after lines 44 and 45 have recorded the sample [rtt]. *)
Definition with_sample (rtt : num) (w : World) : World :=
  mkWorld (sent w) (received w + 1) (latencies w) (errors w)
    (<[latencies w := (samples w ++ [rtt])%list]> (heap w))
    (stdout w) (stderr w).

(** [before < k * m <= after] for some [k]: the counter crossed a multiple
    of [m]. *)
Definition crosses_multiple (before after m : Z) : Prop :=
  exists k, before < k * m <= after.

(** The order of the numbers that are not [NaN]. *)
Definition num_le (a b : num) : Prop :=
  match a, b with
  | Num x, Num y => x <= y
  | _, _ => False
  end.

(** What must hold of [stats] at every moment: one sample per received
    change. *)
Definition counted (w : World) : Prop :=
  received w = Z.of_nat (length (samples w)).

(** The synchronous sections of the program between two suspension points:
    whatever the interleaving of timers, handlers and awaited writes, the
    world changes by a sequence of these. *)
Inductive section : Type :=
| SChange (myId : string) (now : Z) (payload : value)  (* lines 40-50 *)
| SWriteDone                                            (* line 80 *)
| SWriteFailed                                          (* line 82 *)
| SInitFailed (e : exn)                                 (* lines 62-63 *)
| SSummary                                              (* printSummary *)
| SLog (line : string)                                  (* console.log *)
| SError (line : string).                               (* console.error *)

Definition run_section (s : section) : JS unit :=
  match s with
  | SChange myId now payload => on_change myId now payload
  | SWriteDone => incr_sent
  | SWriteFailed => incr_errors
  | SInitFailed e =>
      console_error ("initial upsert error " ++ exn_message e);; incr_errors
  | SSummary => printSummary
  | SLog line => console_log line
  | SError line => console_error line
  end.

Inductive reachable : World -> Prop :=
| reach_initial : reachable initial
| reach_section s w : reachable w -> reachable (exec (run_section s) w).

(** ** Schedules and worlds used in the examples *)

(** Every awaited write settles the same way, and no callback runs
    meanwhile. *)
Definition always (s : settled) : nat -> awaited := fun _ => ([], s).

(** What the library resolves an [upsert] with when the backend refuses
    the row: [{ data: null, error: {...}, status: 403, ... }]. *)
Definition refused : settled :=
  Resolved
    (VObj (<["data" := VNull]>
           (<["error" :=
                VObj {[ "message" :=
                          VStr "new row violates row-level security policy" ]}]>
            {[ "status" := VNum (Num 403) ]}))).

(** What [createClient] throws on a URL that is no HTTP or HTTPS URL. *)
Definition invalid_url : exn :=
  PlainError "Invalid supabaseUrl: Must be a valid HTTP or HTTPS URL.".

(** The write of client [k] is rejected, the others resolve. *)
Definition fails_at (k : nat) : nat -> awaited :=
  fun i => ([], if (i =? k)%nat then Rejected (Rejection "fetch failed")
              else Resolved VUndefined).

(** [stats] with the ten samples 10, 20, ..., 100. *)
Definition ten_samples : World :=
  mkWorld 0 10 0%nat 0
    {[ 0%nat := List.map Num [10; 20; 30; 40; 50; 60; 70; 80; 90; 100] ]} [] [].

(** The same samples as they may have arrived: 100, 20, 30, ..., 90, 10. *)
Definition ten_samples_unordered : World :=
  mkWorld 0 10 0%nat 0
    {[ 0%nat := List.map Num [100; 20; 30; 40; 50; 60; 70; 80; 90; 10] ]} [] [].

(** Three clients; in the first batch the write of client 0 is rejected;
    four batches follow in which every write resolves. *)
Definition five_batches : World :=
  bench (Some "http://192.168.0.50:8000") (Some "your_anon_key") (Some "3")
    (fun _ => Created) (always (Resolved VUndefined))
    [WriteTimer (fails_at 0); WriteTimer (always (Resolved VUndefined));
     WriteTimer (always (Resolved VUndefined)); WriteTimer (always (Resolved VUndefined));
     WriteTimer (always (Resolved VUndefined))]
    initial.

(** ** Rows and their echoes *)

(** Line 79: the row a batch upserts for the client [id] at [sendTs]. *)
Definition periodic_row (id : string) (sendTs : Z) : value :=
  VObj (<["id" := VStr id]>
        (<["value" := VStr ("v" ++ JsNum.to_string (Num sendTs))]>
         {[ "_bench_sent_ts" := VStr (JsNum.to_string (Num sendTs)) ]})).

(** Line 60: the row [run] upserts for the client [myId] at [now]. *)
Definition initial_row (myId : string) (now : Z) : value :=
  VObj (<["id" := VStr myId]>
        (<["value" := VStr "init"]>
         {[ "_bench_sent_ts" := VStr (JsNum.to_string (Num now)) ]})).

(** Line 38: the payload of a change, [{ eventType, new, old }]. *)
Definition change_payload (eventType : string) (new old : value) : value :=
  VObj (<["eventType" := VStr eventType]>
        (<["new" := new]> {[ "old" := old ]})).

(** One change reaches the handler of every client, the handler of client
    [i] at the time [now i]. *)
Definition deliveries (count : num) (now : nat -> Z) (payload : value)
  : list callback :=
  List.map (fun i => Change i (now i) payload) (seq 0 (turns count)).

(** ** Batches that run undisturbed *)

(** A callback that leaves [sent] and [errors] alone and belongs to no
    other batch: the report timer, and a change on which the handler does
    not throw. *)
Definition quiet (c : callback) : bool :=
  match c with
  | Change target _ payload => negb (handler_throws (makeId target) payload)
  | ReportTimer => true
  | OtherWrite _ | OtherBatchEnd => false
  end.

(** Only quiet callbacks run during the awaits of the first [n] turns of a
    loop: no other batch is in progress. *)
Definition quiet_awaits (oracle : nat -> awaited) (n : nat) : bool :=
  forallb (fun i => forallb quiet (fst (oracle i))) (seq 0 n).

(** ** Counting the outcomes of the writes *)

Definition is_rejected (s : settled) : bool :=
  match s with
  | Resolved _ => false
  | Rejected _ => true
  end.

(** The number of rejected writes among the first [n] of a loop. *)
Definition rejections (oracle : nat -> awaited) (n : nat) : nat :=
  length (List.filter (fun i => is_rejected (snd (oracle i))) (seq 0 n)).

(** [new Array(count)] accepts [count]. *)
Definition valid_length (count : num) : bool :=
  match count with
  | NaN => false
  | Num z => (0 <=? z) && (z <? 2 ^ 32)
  end.

(** ** What stays *)

(** What no section undoes: the counters do not decrease, [stats.latencies]
    stays the same array, and samples and output lines are only added at
    the end. *)
Record grows (w w' : World) : Prop := mkGrows {
  grows_sent : sent w <= sent w';
  grows_received : received w <= received w';
  grows_errors : errors w <= errors w';
  grows_latencies : latencies w' = latencies w;
  grows_samples : samples w `prefix_of` samples w';
  grows_stdout : stdout w `prefix_of` stdout w';
  grows_stderr : stderr w `prefix_of` stderr w'
}.

(** ** The summary as a function of [stats]

    [pct] and [printSummary] without the store: what they compute from the
    elements of the array, with the sort and the sum of the model. *)

Definition percentile (elems : list num) (p : Binary64.dyadic) : value :=
  match elems with
  | [] => VNum (Num 0)
  | _ :: _ =>
      let sorted := sort_by js_asc elems in
      let n := length sorted in
      element sorted (Z.min (pct_index p n) (Z.of_nat n - 1))
  end.

Definition derived_of (elems : list num) : Derived :=
  match elems with
  | [] => mkDerived (VStr "-") (VStr "-") (VStr "-") (percentile elems 95)
  | x :: rest =>
      mkDerived (VStr (average x rest)) (VNum (fold_left math_min rest x))
                (VNum (fold_left math_max rest x)) (percentile elems 95)
  end.

Definition report (w : World) : string :=
  summary_line w (derived_of (samples w)).

(** * Properties *)

Ltac js_unfold :=
  unfold mbind, mret, JS_bind, JS_ret, bind, ret, gets, modify, throw,
    try_catch, exec in *.

(** ** The model on known values *)

Example parseInt_examples :
  ParseInt.parseInt "1700000000000" = Num 1700000000000
  /\ ParseInt.parseInt "  42px" = Num 42
  /\ ParseInt.parseInt "-7" = Num (-7)
  /\ ParseInt.parseInt "+15.9" = Num 15
  /\ ParseInt.parseInt "" = NaN
  /\ ParseInt.parseInt "- 1" = NaN
  /\ ParseInt.parseInt "abc" = NaN.
Proof. repeat split. Qed.

Example to_string_examples :
  JsNum.to_string (Num 0) = "0" /\ JsNum.to_string (Num 1234) = "1234"
  /\ JsNum.to_string (Num (-56)) = "-56" /\ JsNum.to_string NaN = "NaN".
Proof. repeat split. Qed.

(** [String([1, null, "a", [2, 3]])] is ["1,,a,2,3"]; [parseInt([5], 10)] is
    5 and [parseInt(1.5, 10)] is 1; an object with a key [toString] has no
    primitive, alone or in an array. *)
Example value_to_string_examples :
  JsValue.to_string
    (VArr [VNum (Num 1); VNull; VStr "a"; VArr [VNum (Num 2); VNum (Num 3)]])
  = "1,,a,2,3"
  /\ JsValue.to_string (VArr []) = ""
  /\ JsValue.parseInt (VArr [VNum (Num 5)]) = Num 5
  /\ JsValue.parseInt (VDec "1.5") = Num 1
  /\ JsValue.parseInt (VObj ∅) = NaN
  /\ JsValue.unprintable (VObj {[ "toString" := VNum (Num 1) ]}) = true
  /\ JsValue.unprintable (VArr [VNull; VObj {[ "toString" := VNull ]}]) = true
  /\ JsValue.unprintable (VObj {[ "id" := VStr "client-0" ]}) = false.
Proof. vm_compute. repeat split. Qed.

(** The doubles nearest to 0.95, 0.1 and 1/3 are 0x3FEE666666666666,
    0x3FB999999999999A and 0x3FD5555555555555. *)
Example div_examples :
  Binary64.div 95 100 = Binary64.Dy 0x1E666666666666 (-53)
  /\ Binary64.div 1 10 = Binary64.Dy 0x1999999999999A (-56)
  /\ Binary64.div 1 3 = Binary64.Dy 0x15555555555555 (-54).
Proof. vm_compute. repeat split. Qed.

(** [(1.15).toFixed(1)] is ["1.1"], because the double below 1.15 is
    divided; [(1.25).toFixed(1)] is ["1.3"], the larger of two. *)
Example toFixed1_examples :
  Binary64.toFixed1 (Binary64.div 23 20) = "1.1"
  /\ Binary64.toFixed1 (Binary64.div 5 4) = "1.3"
  /\ Binary64.toFixed1 (Binary64.div 100 3) = "33.3"
  /\ Binary64.toFixed1 (Binary64.div (-7) 20) = "-0.3"
  /\ Binary64.toFixed1 (Binary64.div 0 7) = "0.0".
Proof. vm_compute. repeat split. Qed.

Example makeId_examples : makeId 0 = "client-0" /\ makeId 12 = "client-12".
Proof. split; reflexivity. Qed.

Example summary_of_ten_samples :
  stdout (exec printSummary ten_samples_unordered)
  = ["SENT:0 RECV:10 ERR:0 | avg:55.0ms min:10ms max:100ms p95:100ms samples:10"].
Proof. vm_compute. reflexivity. Qed.

(** Sorting the array itself, without [Array.from], would reorder the
    samples of [stats]. *)
Example sort_in_place_reorders :
  samples (exec (array_sort (latencies ten_samples_unordered) js_asc)
             ten_samples_unordered)
  <> samples ten_samples_unordered.
Proof. vm_compute. discriminate. Qed.

(** ** The handler *)

Lemma strict_eq_str_true v s : JsValue.strict_eq_str v s = true <-> v = VStr s.
Proof.
  destruct v; simpl; try (split; [discriminate | congruence]).
  rewrite String.eqb_eq. split; congruence.
Qed.

Lemma strict_eq_str_false v s : JsValue.strict_eq_str v s = false <-> v <> VStr s.
Proof.
  rewrite <- strict_eq_str_true. destruct (JsValue.strict_eq_str v s); split; congruence.
Qed.

(** The body of the [try] does what lines 42-47 say on the two fields, and
    nothing else. *)
Lemma on_change_body_eq myId now payload w :
  on_change_body myId now payload w =
    if JsValue.strict_eq_str (event_id payload) myId
       && JsValue.truthy (event_ts payload)
    then record_sample now (event_ts payload) w
    else (Normal tt, w).
Proof.
  unfold on_change_body, event_id, event_ts.
  destruct payload as [| | | | |top| |]; try reflexivity.
  unfold get_prop_opt, get_prop, field. js_unfold.
  destruct (top !! "new") as [rec|]; simpl; [|reflexivity].
  destruct rec as [| | [|] | n | s |fs| |]; simpl; try reflexivity.
  - destruct (JsNum.truthy n); reflexivity.
  - destruct (negb (String.eqb s "")); reflexivity.
  - destruct (JsValue.strict_eq_str (default VUndefined (fs !! "id")) myId);
      simpl; [|reflexivity].
    destruct (JsValue.truthy (default VUndefined (fs !! "_bench_sent_ts")));
      reflexivity.
Qed.

Lemma samples_with_sample rtt w :
  samples (with_sample rtt w) = (samples w ++ [rtt])%list.
Proof.
  unfold samples, deref, with_sample. cbn [heap latencies].
  apply lookup_total_insert_eq.
Qed.

(** Lines 43-46 record a sample, unless [parseInt] throws. *)
Lemma record_sample_eq now ts w :
  record_sample now ts w =
    if JsValue.unprintable ts
    then (Throw (TypeError "Cannot convert object to primitive value"), w)
    else (Normal tt,
          with_sample (JsNum.sub (Num now) (JsValue.parseInt ts)) w).
Proof.
  unfold record_sample, parse_int. js_unfold.
  destruct (JsValue.unprintable ts); reflexivity.
Qed.

(** The handler in one equation: a change of another row, or one without
    a timestamp, is dropped; the [catch] of line 48 is entered when
    [parseInt] throws, and only then; otherwise a sample is recorded. *)
Lemma on_change_eq myId now payload w :
  on_change myId now payload w =
    if JsValue.strict_eq_str (event_id payload) myId
       && JsValue.truthy (event_ts payload)
    then
      if JsValue.unprintable (event_ts payload)
      then incr_errors w
      else (Normal tt,
            with_sample
              (JsNum.sub (Num now) (JsValue.parseInt (event_ts payload))) w)
    else (Normal tt, w).
Proof.
  unfold on_change, try_catch. rewrite on_change_body_eq.
  destruct (_ && _); [|reflexivity].
  rewrite record_sample_eq.
  destruct (JsValue.unprintable (event_ts payload)); reflexivity.
Qed.

(** The handler never throws. *)
Lemma on_change_normal myId now payload w :
  fst (on_change myId now payload w) = Normal tt.
Proof.
  rewrite on_change_eq.
  destruct (_ && _); [|reflexivity].
  destruct (JsValue.unprintable _); reflexivity.
Qed.

Lemma foreign_change_ignored_eq myId now payload w :
  event_id payload <> VStr myId -> on_change myId now payload w = (Normal tt, w).
Proof.
  intros Hid. apply strict_eq_str_false in Hid.
  rewrite on_change_eq, Hid. reflexivity.
Qed.

(** C5: a change whose record identity is not the identity of the session
    leaves the whole world as it was when that session's handler has
    processed it: the sample set, [sent], [received] and [errors] are
    unchanged, and the handler completes normally (the drop is silent, the
    [catch] that counts an error is not entered). *)
Theorem foreign_change_ignored (myId : string) (now : Z) (payload : value) (w : World) :
  event_id payload <> VStr myId ->
  on_change myId now payload w = (Normal tt, w)
  /\ samples (exec (on_change myId now payload) w) = samples w
  /\ sent (exec (on_change myId now payload) w) = sent w
  /\ received (exec (on_change myId now payload) w) = received w
  /\ errors (exec (on_change myId now payload) w) = errors w.
Proof.
  intros Hid.
  pose proof (foreign_change_ignored_eq myId now payload w Hid) as E.
  unfold exec. rewrite E. repeat split.
Qed.

Lemma foreign_change_ignored_witness :
  on_change "client-0" 1700000000123
    (change_of "client-1" (VStr "1700000000000")) initial
  = (Normal tt, initial).
Proof.
  apply (foreign_change_ignored "client-0" 1700000000123
           (change_of "client-1" (VStr "1700000000000")) initial).
  vm_compute. discriminate.
Defined.

Lemma append_same_prefix (p s t : string) : p ++ s = p ++ t -> s = t.
Proof.
  induction p as [|c p IH]; intros H; [exact H|].
  apply IH. change (String c (p ++ s) = String c (p ++ t)) in H. congruence.
Qed.

(** Two clients never share an identity. *)
Lemma makeId_inj i j : makeId i = makeId j -> i = j.
Proof.
  unfold makeId, JsNum.to_string. intros H.
  assert (NilEmpty.string_of_int (Z.to_int (Z.of_nat i))
          = NilEmpty.string_of_int (Z.to_int (Z.of_nat j))) as H1.
  { exact (append_same_prefix _ _ _ H). }
  apply (f_equal NilEmpty.int_of_string) in H1.
  rewrite !NilEmpty.isi in H1.
  apply Nat2Z.inj, DecimalZ.to_int_inj. congruence.
Qed.

(** A change for the row of client [j] is ignored by the handler of every
    other client. *)
Lemma change_of_other_client_ignored i j now ts w :
  i <> j ->
  on_change (makeId i) now (change_of (makeId j) ts) w = (Normal tt, w).
Proof.
  intros Hij. apply foreign_change_ignored_eq.
  unfold event_id, change_of, field. simplify_map_eq.
  intros H. apply Hij. symmetry. apply makeId_inj. congruence.
Qed.

(** C1, as the code has it: a change with the identity of the session whose
    timestamp field is missing ([undefined], [null], the empty string, or
    another falsy value) is dropped silently: the world is unchanged, so no
    sample is appended and [sent], [received] and [errors] keep their
    values. *)
Theorem missing_timestamp_dropped (myId : string) (now : Z) (payload : value) (w : World) :
  event_id payload = VStr myId ->
  JsValue.truthy (event_ts payload) = false ->
  on_change myId now payload w = (Normal tt, w)
  /\ samples (exec (on_change myId now payload) w) = samples w
  /\ sent (exec (on_change myId now payload) w) = sent w
  /\ received (exec (on_change myId now payload) w) = received w
  /\ errors (exec (on_change myId now payload) w) = errors w.
Proof.
  intros Hid Hts.
  assert (on_change myId now payload w = (Normal tt, w)) as E.
  { rewrite on_change_eq, Hts, andb_false_r. reflexivity. }
  unfold exec. rewrite E. repeat split.
Qed.

Lemma missing_timestamp_dropped_witness :
  on_change "client-0" 1700000000123 (change_of "client-0" VUndefined) initial
  = (Normal tt, initial).
Proof.
  apply (missing_timestamp_dropped "client-0" 1700000000123
           (change_of "client-0" VUndefined) initial);
    vm_compute; reflexivity.
Defined.

(** C1 as stated fails: the timestamp ["abc"] is not parseable as a number,
    the identity is the session's, and the change is not dropped: it is
    counted in [received] and a [NaN] sample is appended. *)
Lemma malformed_timestamp_recorded :
  let payload := change_of "client-0" (VStr "abc") in
  let w' := exec (on_change "client-0" 1700000000123 payload) initial in
  event_id payload = VStr "client-0"
  /\ JsValue.parseInt (event_ts payload) = NaN
  /\ samples initial = [] /\ samples w' = [NaN]
  /\ received initial = 0 /\ received w' = 1.
Proof. vm_compute. repeat split. Qed.

(** ** [pct] and the array store *)

(** [pct] in one step: the result, and the only change to the world, a new
    array that holds the sorted copy. *)
Lemma pct_eq arr p w :
  pct arr p w =
    match deref w arr with
    | [] => (Normal (VNum (Num 0)), w)
    | _ :: _ =>
        let sorted := sort_by js_asc (deref w arr) in
        let n := length sorted in
        (Normal (element sorted (Z.min (pct_index p n) (Z.of_nat n - 1))),
         set_heap (<[fresh (dom (heap w)) := sorted]> (heap w)) w)
    end.
Proof.
  unfold pct, array_length, array_from, array_sort, array_get. js_unfold.
  destruct (deref w arr) as [|x l] eqn:E; [reflexivity|].
  cbn [length Nat.eqb fst snd]. rewrite <- E.
  unfold deref, set_heap; cbn [heap].
  rewrite !lookup_total_insert_eq, insert_insert_eq. reflexivity.
Qed.

Lemma deref_unallocated w l : heap w !! l = None -> deref w l = [].
Proof. intros H. unfold deref. rewrite lookup_total_alt, H. reflexivity. Qed.

Lemma fresh_not_allocated w l : is_Some (heap w !! l) -> fresh (dom (heap w)) <> l.
Proof.
  intros Hl Heq. apply elem_of_dom in Hl. rewrite <- Heq in Hl.
  exact (is_fresh _ Hl).
Qed.

(** [pct] leaves every array of the store as it found it; it only adds one. *)
Lemma pct_frame arr p w l :
  is_Some (heap w !! l) -> heap (exec (pct arr p) w) !! l = heap w !! l.
Proof.
  intros Hl. unfold exec. rewrite pct_eq.
  destruct (deref w arr); simpl; [reflexivity|].
  apply lookup_insert_ne, fresh_not_allocated, Hl.
Qed.

(** The array passed to [pct] is among them, and when the reference points
    to nothing [pct] returns at line 96. *)
Lemma pct_keeps_lookup arr p w :
  heap (exec (pct arr p) w) !! arr = heap w !! arr.
Proof.
  destruct (heap w !! arr) as [l|] eqn:E.
  - rewrite <- E. apply pct_frame. rewrite E. eauto.
  - unfold exec. rewrite pct_eq, (deref_unallocated _ _ E). exact E.
Qed.

(** C10: [pct] sorts a copy.  Whatever the array [arr] and the percentile
    [p] (any double), after [pct(arr, p)] the array [arr] holds the elements it held
    before the call, in the same order. *)
Theorem pct_keeps_array (arr : loc) (p : Binary64.dyadic) (w : World) :
  heap (exec (pct arr p) w) !! arr = heap w !! arr
  /\ deref (exec (pct arr p) w) arr = deref w arr.
Proof.
  pose proof (pct_keeps_lookup arr p w) as H.
  split; [exact H|]. unfold deref. rewrite !lookup_total_alt, H. reflexivity.
Qed.

Lemma pct_keeps_stats arr p w :
  let w' := exec (pct arr p) w in
  sent w' = sent w /\ received w' = received w /\ errors w' = errors w
  /\ latencies w' = latencies w /\ stdout w' = stdout w /\ stderr w' = stderr w.
Proof.
  unfold exec. rewrite pct_eq. destruct (deref w arr); simpl; repeat split.
Qed.

(** ** [printSummary] *)

Lemma derive_eq w :
  derive w =
    let elems := samples w in
    (Normal (mkDerived
       (match elems with [] => VStr "-" | x :: rest => VStr (average x rest) end)
       (match elems with [] => VStr "-" | x :: rest => VNum (fold_left math_min rest x) end)
       (match elems with [] => VStr "-" | x :: rest => VNum (fold_left math_max rest x) end)
       (match fst (pct (latencies w) 95 w) with Normal v => v | Throw _ => VUndefined end)),
     exec (pct (latencies w) 95) w).
Proof.
  unfold derive, exec. js_unfold. simpl.
  rewrite pct_eq. fold (samples w). destruct (samples w); reflexivity.
Qed.

Lemma printSummary_eq w :
  printSummary w =
    let w1 := exec derive w in
    (Normal tt,
     mkWorld (sent w1) (received w1) (latencies w1) (errors w1) (heap w1)
       (stdout w1 ++ [summary_line w1
                        (match fst (derive w) with
                         | Normal d => d
                         | Throw _ => mkDerived VUndefined VUndefined VUndefined VUndefined
                         end)])%list
       (stderr w1)).
Proof.
  unfold printSummary, console_log, exec. js_unfold.
  rewrite derive_eq. reflexivity.
Qed.

(** A summary reads [stats]; it changes neither the counters nor the
    samples. *)
Lemma printSummary_keeps_stats w :
  let w' := exec printSummary w in
  fst (printSummary w) = Normal tt
  /\ sent w' = sent w /\ received w' = received w /\ errors w' = errors w
  /\ latencies w' = latencies w /\ samples w' = samples w
  /\ stderr w' = stderr w.
Proof.
  assert (exec derive w = exec (pct (latencies w) 95) w) as Hd.
  { unfold exec at 1. rewrite derive_eq. reflexivity. }
  unfold exec at 1. rewrite printSummary_eq. cbn zeta. cbn [fst snd].
  rewrite Hd.
  destruct (pct_keeps_stats (latencies w) 95 w) as (Hs & Hr & He & Hl & Ho & Herr).
  cbn [sent received errors latencies stderr].
  repeat split; try assumption.
  unfold samples, deref; cbn [heap latencies]. rewrite Hl.
  rewrite !lookup_total_alt, (pct_keeps_lookup (latencies w) 95 w). reflexivity.
Qed.

(** ** Loops and sequences *)

Lemma bind_normal {A B} (m : JS A) (k : A -> JS B) w a :
  fst (m w) = Normal a -> (m ≫= k) w = k a (exec m w).
Proof.
  unfold exec. js_unfold. destruct (m w) as [[a'|e] w']; simpl; congruence.
Qed.

Lemma bind_throw {A B} (m : JS A) (k : A -> JS B) w e :
  fst (m w) = Throw e -> (m ≫= k) w = (Throw e, exec m w).
Proof.
  unfold exec. js_unfold. destruct (m w) as [[a'|e'] w']; simpl; congruence.
Qed.

(** A loop whose body never throws runs all its turns, and carries an
    invariant indexed by the turn from the first turn to the last. *)
Lemma for_from_inv (I : nat -> World -> Prop) body i n w :
  (forall j w, fst (body j w) = Normal tt) ->
  (forall j w, (i <= j < i + n)%nat -> I j w -> I (S j) (exec (body j) w)) ->
  I i w ->
  fst (for_from i n body w) = Normal tt
  /\ I (i + n)%nat (exec (for_from i n body) w).
Proof.
  intros Hn Hstep. revert i w Hstep.
  induction n as [|n IH]; intros i w Hstep Hi.
  - simpl. rewrite Nat.add_0_r. split; [reflexivity | exact Hi].
  - simpl. unfold exec. rewrite (bind_normal _ _ _ tt (Hn i w)).
    replace (i + S n)%nat with (S i + n)%nat by lia.
    apply IH.
    + intros j w' Hj. apply Hstep. lia.
    + apply Hstep; [lia | exact Hi].
Qed.

Lemma for_from_closed (P : World -> Prop) body i n w :
  (forall j w, fst (body j w) = Normal tt) ->
  (forall j w, P w -> P (exec (body j) w)) ->
  P w ->
  fst (for_from i n body w) = Normal tt /\ P (exec (for_from i n body) w).
Proof.
  intros Hn Hstep Hw.
  apply (for_from_inv (fun _ => P) body i n w Hn); [|exact Hw].
  intros j w' _. apply Hstep.
Qed.

(** What every turn preserves, the loop preserves, also when a turn
    throws and ends the loop. *)
Lemma for_from_preserved (P : World -> Prop) body i n w :
  (forall j w, P w -> P (exec (body j) w)) ->
  P w -> P (exec (for_from i n body) w).
Proof.
  intros Hstep. revert i w.
  induction n as [|n IH]; intros i w Hw; [exact Hw|].
  simpl. pose proof (Hstep i w Hw) as H1. unfold exec in *. js_unfold.
  destruct (body i w) as [[[]|e] w1]; cbn [snd] in *; [|exact H1].
  apply IH, H1.
Qed.

(** ** Callbacks *)

Lemma on_change_keeps_sent myId now payload w :
  sent (exec (on_change myId now payload) w) = sent w.
Proof.
  unfold exec. rewrite on_change_eq.
  destruct (_ && _); [|reflexivity].
  destruct (JsValue.unprintable _); reflexivity.
Qed.

(** [errors] grows in the handler when the [catch] is entered, and only
    then. *)
Lemma on_change_errors myId now payload w :
  errors (exec (on_change myId now payload) w)
  = errors w + (if handler_throws myId payload then 1 else 0).
Proof.
  unfold exec, handler_throws. rewrite on_change_eq.
  destruct (_ && _); simpl; [|lia].
  destruct (JsValue.unprintable _); simpl; lia.
Qed.

Lemma batch_end_eq count w :
  batch_end count w =
    if summary_due count w then printSummary w else (Normal tt, w).
Proof. unfold batch_end. js_unfold. destruct (summary_due _ _); reflexivity. Qed.

Lemma batch_end_normal count w : fst (batch_end count w) = Normal tt.
Proof.
  rewrite batch_end_eq. destruct (summary_due _ _); [|reflexivity].
  apply printSummary_keeps_stats.
Qed.

Section HarnessFacts.

Variable count : num.

Lemma run_callback_normal c w : fst (run_callback count c w) = Normal tt.
Proof.
  destruct c as [target now payload| |[r|e]|]; simpl.
  - destruct (target <? turns count)%nat; [apply on_change_normal | reflexivity].
  - apply printSummary_keeps_stats.
  - reflexivity.
  - reflexivity.
  - apply batch_end_normal.
Qed.

(** A quiet callback changes neither [sent] nor [errors]. *)
Lemma run_callback_keeps_sent_errors c w :
  quiet c = true ->
  sent (exec (run_callback count c) w) = sent w
  /\ errors (exec (run_callback count c) w) = errors w.
Proof.
  destruct c as [target now payload| |s|]; simpl; intros Hq;
    try discriminate.
  - destruct (target <? turns count)%nat; [|split; reflexivity].
    rewrite on_change_keeps_sent, on_change_errors.
    apply negb_true_iff in Hq. rewrite Hq. split; lia.
  - pose proof (printSummary_keeps_stats w) as H. simpl in H. tauto.
Qed.

Lemma batch_end_reachable w :
  reachable w -> reachable (exec (batch_end count) w).
Proof.
  intros Hw. unfold exec. rewrite batch_end_eq.
  destruct (summary_due _ _); [|exact Hw].
  exact (reach_section SSummary w Hw).
Qed.

Lemma run_callback_reachable c w :
  reachable w -> reachable (exec (run_callback count c) w).
Proof.
  intros Hw. destruct c as [target now payload| |[r|e]|]; simpl.
  - destruct (target <? turns count)%nat; [|exact Hw].
    exact (reach_section (SChange (makeId target) now payload) w Hw).
  - exact (reach_section SSummary w Hw).
  - exact (reach_section SWriteDone w Hw).
  - exact (reach_section SWriteFailed w Hw).
  - apply batch_end_reachable, Hw.
Qed.

Lemma run_callbacks_normal cs w : fst (run_callbacks count cs w) = Normal tt.
Proof.
  revert w. induction cs as [|c cs IH]; intros w; simpl; [reflexivity|].
  rewrite (bind_normal _ _ _ tt (run_callback_normal c w)). apply IH.
Qed.

Lemma run_callbacks_cons c cs w :
  exec (run_callbacks count (c :: cs)) w
  = exec (run_callbacks count cs) (exec (run_callback count c) w).
Proof.
  unfold exec at 1. simpl.
  rewrite (bind_normal _ _ _ tt (run_callback_normal c w)). reflexivity.
Qed.

Lemma run_callbacks_keeps_sent_errors cs w :
  forallb quiet cs = true ->
  sent (exec (run_callbacks count cs) w) = sent w
  /\ errors (exec (run_callbacks count cs) w) = errors w.
Proof.
  revert w. induction cs as [|c cs IH]; intros w Hq; [split; reflexivity|].
  simpl in Hq. apply andb_true_iff in Hq as [Hc Hcs].
  rewrite run_callbacks_cons.
  destruct (IH (exec (run_callback count c) w) Hcs) as [-> ->].
  apply run_callback_keeps_sent_errors, Hc.
Qed.

Lemma run_callbacks_reachable cs w :
  reachable w -> reachable (exec (run_callbacks count cs) w).
Proof.
  revert w. induction cs as [|c cs IH]; intros w Hw; [exact Hw|].
  rewrite run_callbacks_cons. apply IH, run_callback_reachable, Hw.
Qed.

(** ** One turn of the write loop *)

(** The turn, spelled out: the callbacks that run during the [await], then
    line 80 or line 82. *)
Lemma write_turn_eq oracle i w :
  write_turn count oracle i w =
    let w1 := exec (run_callbacks count (fst (oracle i))) w in
    match snd (oracle i) with
    | Resolved _ => incr_sent w1
    | Rejected _ => incr_errors w1
    end.
Proof.
  pose proof (run_callbacks_normal (fst (oracle i)) w) as H.
  unfold write_turn, await_upsert. js_unfold.
  destruct (run_callbacks count (fst (oracle i)) w) as [[[]|e] w1];
    simpl in H; [|discriminate].
  simpl. destruct (snd (oracle i)); reflexivity.
Qed.

Lemma write_turn_normal oracle i w :
  fst (write_turn count oracle i w) = Normal tt.
Proof. rewrite write_turn_eq. simpl. destruct (snd (oracle i)); reflexivity. Qed.

Lemma write_turn_reachable oracle i w :
  reachable w -> reachable (exec (write_turn count oracle i) w).
Proof.
  intros Hw. unfold exec. rewrite write_turn_eq. cbn zeta.
  pose proof (run_callbacks_reachable (fst (oracle i)) w Hw) as H1.
  destruct (snd (oracle i)).
  - exact (reach_section SWriteDone _ H1).
  - exact (reach_section SWriteFailed _ H1).
Qed.

(** Each turn adds one to [sent] or one to [errors], when the callbacks
    that run during its await are quiet. *)
Lemma write_turn_counts oracle i w :
  forallb quiet (fst (oracle i)) = true ->
  sent (exec (write_turn count oracle i) w)
  + errors (exec (write_turn count oracle i) w)
  = sent w + errors w + 1.
Proof.
  intros Hq. unfold exec. rewrite write_turn_eq. cbn zeta.
  destruct (run_callbacks_keeps_sent_errors (fst (oracle i)) w Hq) as [Hs He].
  destruct (snd (oracle i)); simpl; lia.
Qed.

Lemma quiet_awaits_turn oracle n i :
  quiet_awaits oracle n = true -> (i < n)%nat ->
  forallb quiet (fst (oracle i)) = true.
Proof.
  unfold quiet_awaits. rewrite forallb_forall. intros H Hi.
  apply (H i), in_seq. lia.
Qed.

Lemma write_loop_normal oracle w : fst (write_loop count oracle w) = Normal tt.
Proof.
  apply (for_from_closed (fun _ => True)); auto using write_turn_normal.
Qed.

Lemma write_loop_reachable oracle w :
  reachable w -> reachable (exec (write_loop count oracle) w).
Proof.
  intros Hw.
  apply (for_from_closed reachable);
    auto using write_turn_normal, write_turn_reachable.
Qed.

(** Every session gets its turn, whatever failed before it. *)
Lemma write_loop_counts oracle w :
  quiet_awaits oracle (turns count) = true ->
  sent (exec (write_loop count oracle) w)
  + errors (exec (write_loop count oracle) w)
  = sent w + errors w + Z.of_nat (turns count).
Proof.
  intros Hq.
  pose (I := fun (j : nat) (w' : World) =>
               sent w' + errors w' = sent w + errors w + Z.of_nat j).
  apply (for_from_inv I (write_turn count oracle) 0 (turns count) w).
  - apply write_turn_normal.
  - intros j w' Hj HI. unfold I in *.
    rewrite write_turn_counts; [lia|].
    apply (quiet_awaits_turn oracle (turns count)); [exact Hq | lia].
  - unfold I. lia.
Qed.

(** ** The write timer *)

Lemma tick_eq oracle w :
  tick count oracle w =
    let w1 := exec (write_loop count oracle) w in
    if summary_due count w1 then printSummary w1 else (Normal tt, w1).
Proof.
  unfold tick. rewrite (bind_normal _ _ _ tt (write_loop_normal oracle w)).
  cbn zeta. apply batch_end_eq.
Qed.

Lemma tick_normal oracle w : fst (tick count oracle w) = Normal tt.
Proof.
  rewrite tick_eq. cbn zeta. destruct (summary_due _ _); [|reflexivity].
  apply printSummary_keeps_stats.
Qed.

Lemma tick_reachable oracle w :
  reachable w -> reachable (exec (tick count oracle) w).
Proof.
  intros Hw. unfold exec. rewrite tick_eq. cbn zeta.
  pose proof (write_loop_reachable oracle w Hw) as H1.
  destruct (summary_due _ _); [|exact H1].
  exact (reach_section SSummary _ H1).
Qed.

End HarnessFacts.

(** ** [run] and the event loop *)

Lemma initial_upsert_eq count oracle i w :
  initial_upsert count oracle i w =
    let w1 := exec (run_callbacks count
                      (List.filter (subscribed i) (fst (oracle i)))) w in
    match snd (oracle i) with
    | Resolved _ => (Normal tt, w1)
    | Rejected e => run_section (SInitFailed e) w1
    end.
Proof.
  pose proof (run_callbacks_normal count
                (List.filter (subscribed i) (fst (oracle i))) w) as H.
  unfold initial_upsert, await_upsert. js_unfold. cbn [fst snd].
  destruct (run_callbacks count _ w) as [[[]|e] w1]; simpl in H; [|discriminate].
  simpl. destruct (snd (oracle i)); reflexivity.
Qed.

Lemma initial_upsert_normal count oracle i w :
  fst (initial_upsert count oracle i w) = Normal tt.
Proof.
  rewrite initial_upsert_eq. cbn zeta. destruct (snd (oracle i)); reflexivity.
Qed.

Lemma initial_upsert_reachable count oracle i w :
  reachable w -> reachable (exec (initial_upsert count oracle i) w).
Proof.
  intros Hw. unfold exec. rewrite initial_upsert_eq. cbn zeta.
  pose proof (run_callbacks_reachable count
                (List.filter (subscribed i) (fst (oracle i))) w Hw) as H1.
  destruct (snd (oracle i)) as [?|e]; [exact H1|].
  exact (reach_section (SInitFailed e) _ H1).
Qed.

(** One turn of the loop of [run]: [createClient] throws and nothing has
    happened, or the first row is written. *)
Lemma setup_client_eq count created oracle i w :
  setup_client count created oracle i w =
    match created i with
    | Created => initial_upsert count oracle i w
    | CreationFailed e => (Throw e, w)
    end.
Proof.
  unfold setup_client, create_client. js_unfold.
  destruct (created i); reflexivity.
Qed.

Lemma setup_client_reachable count created oracle i w :
  reachable w -> reachable (exec (setup_client count created oracle i) w).
Proof.
  intros Hw. unfold exec. rewrite setup_client_eq.
  destruct (created i); [|exact Hw].
  apply initial_upsert_reachable, Hw.
Qed.

Lemma run_reachable count url created oracle w :
  reachable w -> reachable (exec (run count url created oracle) w).
Proof.
  intros Hw. unfold run.
  set (line := "Starting benchmark: " ++ _).
  pose proof (reach_section (SLog line) w Hw) as H1.
  unfold exec at 1. rewrite (bind_normal (console_log line) _ w tt eq_refl).
  change (exec (console_log line) w) with (exec (run_section (SLog line)) w).
  set (w1 := exec (run_section (SLog line)) w) in *.
  destruct (new_clients count w1) as [[[]|e] w2] eqn:E.
  - assert (w2 = w1) as ->.
    { unfold new_clients in E. destruct count as [|z]; [discriminate|].
      destruct (_ && _); inversion E; reflexivity. }
    rewrite (bind_normal _ _ _ tt); [|rewrite E; reflexivity].
    unfold exec at 1. rewrite E. cbn [snd].
    pose proof (for_from_preserved reachable
                  (setup_client count created oracle) 0 (turns count) w1
                  (fun j w' => setup_client_reachable count created oracle j w')
                  H1) as Hr.
    unfold exec in Hr. js_unfold. unfold for_loop.
    destruct (for_from 0 (turns count) (setup_client count created oracle) w1)
      as [[[]|e] w2]; cbn [snd] in *; [|exact Hr].
    exact (reach_section (SLog "All clients created and subscribed.") _ Hr).
  - assert (w2 = w1) as ->.
    { unfold new_clients in E. destruct count as [|z].
      - inversion E; reflexivity.
      - destruct (_ && _); inversion E; reflexivity. }
    rewrite (bind_throw _ _ _ e); [|rewrite E; reflexivity].
    unfold exec. rewrite E. exact H1.
Qed.

Lemma run_task_normal count t w : fst (run_task count t w) = Normal tt.
Proof. destruct t; [apply run_callback_normal | apply tick_normal]. Qed.

Lemma run_task_reachable count t w :
  reachable w -> reachable (exec (run_task count t) w).
Proof. destruct t; [apply run_callback_reachable | apply tick_reachable]. Qed.

Lemma run_tasks_reachable count ts w :
  reachable w -> reachable (exec (run_tasks count ts) w).
Proof.
  revert w. induction ts as [|t ts IH]; intros w Hw; [exact Hw|].
  unfold exec. simpl. rewrite (bind_normal _ _ _ tt (run_task_normal count t w)).
  apply IH, run_task_reachable, Hw.
Qed.

(** Whatever the arguments, the outcomes of the writes and the schedule of
    the callbacks, the program moves through reachable worlds. *)
Lemma main_reachable count url created startup ts w :
  reachable w -> reachable (main count url created startup ts w).
Proof.
  intros Hw. unfold main.
  pose proof (run_reachable count url created startup w Hw) as H1.
  unfold exec in H1.
  destruct (run count url created startup w) as [[[]|e] w1]; cbn [snd] in H1.
  - apply run_tasks_reachable, H1.
  - exact (reach_section (SError (exn_message e)) _ H1).
Qed.

Lemma bench_reachable url key arg created startup ts w :
  reachable w -> reachable (bench url key arg created startup ts w).
Proof.
  intros Hw. unfold bench. destruct (_ || _).
  - exact (reach_section (SError usage) w Hw).
  - apply main_reachable, Hw.
Qed.

(** A client count that is not a number ends the program before any client
    is created: [new Array(NaN)] throws, and the error is all that is left
    after the banner. *)
Lemma no_client_without_count url key arg created startup ts :
  falsy_arg url || falsy_arg key = false ->
  CLIENT_COUNT arg = NaN ->
  let w := bench url key arg created startup ts initial in
  stderr w = ["RangeError: Invalid array length"]
  /\ sent w = 0 /\ received w = 0 /\ errors w = 0.
Proof.
  intros Hargs Hc. unfold bench. rewrite Hargs, Hc. repeat split.
Qed.

(** ** The counters *)

Lemma run_section_counted s w : counted w -> counted (exec (run_section s) w).
Proof.
  unfold counted. intros Hw.
  destruct s as [myId now payload| | |e| |line|line]; simpl; try exact Hw.
  - unfold exec. rewrite on_change_eq.
    destruct (_ && _); [|exact Hw].
    destruct (JsValue.unprintable _); [exact Hw|].
    cbn [snd]. rewrite samples_with_sample, length_app.
    cbn [with_sample received length]. lia.
  - pose proof (printSummary_keeps_stats w) as H. cbn zeta in H.
    destruct H as (_ & _ & Hr & _ & _ & Hsm & _). rewrite Hr, Hsm. exact Hw.
Qed.

(** C9: at every point the program can reach, [received] is the number of
    latency samples.  The worlds the program reaches are those obtained from
    the initial [stats] by its synchronous sections (a handler run, the
    continuation of a write, a summary, a log line), in any order, and
    the program [bench], whatever its arguments, the outcome of
    [createClient], the outcomes of its writes and the schedule of its
    callbacks, ends in one of them. *)
Theorem received_counts_samples :
  (forall w, reachable w -> received w = Z.of_nat (length (samples w)))
  /\ (forall url key arg created startup ts,
        let w := bench url key arg created startup ts initial in
        reachable w /\ received w = Z.of_nat (length (samples w))).
Proof.
  assert (forall w, reachable w -> counted w) as H.
  { induction 1 as [|s w Hw IH]; [reflexivity|]. apply run_section_counted, IH. }
  split; [exact H|].
  intros url key arg created startup ts w.
  assert (reachable w) by (apply bench_reachable, reach_initial).
  split; [assumption | apply H; assumption].
Qed.

Lemma received_counts_samples_witness :
  let w := exec (on_change "client-0" 1700000000123
                   (change_of "client-0" (VStr "1700000000000"))) initial in
  received w = Z.of_nat (length (samples w)).
Proof.
  apply (proj1 received_counts_samples).
  exact (reach_section
           (SChange "client-0" 1700000000123
              (change_of "client-0" (VStr "1700000000000")))
           initial reach_initial).
Defined.

(** ** Write failures *)

(** C6 does not hold of the code.  The write of a session fails: the
    backend refuses the row, and the awaited [upsert] resolves with a
    response whose [error] is set, as the library does for every failed
    request.  Line 80 counts the write in [sent] and [errors] is not
    touched, in the turn and at the end of the batch of three sessions;
    only a promise that rejects reaches line 82. *)
Theorem refused_write_counted_as_sent :
  let w1 := exec (write_turn (Num 3) (always refused) 0) initial in
  let w3 := exec (tick (Num 3) (always refused)) initial in
  let r1 := exec (write_turn (Num 3) (fails_at 0) 0) initial in
  sent initial = 0 /\ errors initial = 0
  /\ field (match refused with Resolved r => r | Rejected _ => VUndefined end)
        "error" <> VNull
  /\ sent w1 = 1 /\ errors w1 = 0
  /\ sent w3 = 3 /\ errors w3 = 0
  /\ sent r1 = 0 /\ errors r1 = 1.
Proof. vm_compute. repeat split; discriminate. Qed.

(** ** The summary after a batch *)

Lemma printSummary_stdout w :
  exists line, stdout (exec printSummary w) = (stdout w ++ [line])%list.
Proof.
  unfold exec. rewrite printSummary_eq. cbn zeta. cbn [snd stdout].
  unfold exec at 1. rewrite derive_eq. cbn zeta. cbn [snd].
  destruct (pct_keeps_stats (latencies w) 95 w) as (_ & _ & _ & _ & -> & _).
  eauto.
Qed.

(** Line 86 holds exactly when [CLIENT_COUNT] is a number other than zero
    and [sent] is a multiple of five times that number. *)
Lemma summary_due_iff count w :
  summary_due count w = true
  <-> exists n, count = Num n /\ n <> 0 /\ (n * 5 | sent w).
Proof.
  unfold summary_due. destruct count as [|n]; simpl.
  - split; [discriminate | intros (n & H & _); discriminate].
  - destruct (Z.eqb_spec (n * 5) 0) as [E|E]; simpl.
    + split; [discriminate|]. intros (m & Hm & Hne & _). inversion Hm. lia.
    + rewrite Z.eqb_eq, (Z.rem_divide _ _ E). split.
      * intros H. exists n. repeat split; [lia | exact H].
      * intros (m & Hm & _ & H). inversion Hm. subst. exact H.
Qed.

(** C7, as the code has it: when a batch of writes is complete, a summary is
    emitted at once if [sent] is then an exact multiple of
    [5 * CLIENT_COUNT], and only then; the timer callback is the batch
    followed by [printSummary], which adds one line to the output, or the
    batch alone. *)
Theorem summary_after_batch (n : Z) (oracle : nat -> awaited) (w : World) :
  n <> 0 ->
  let w1 := exec (write_loop (Num n) oracle) w in
  ((n * 5 | sent w1) ->
     tick (Num n) oracle w = printSummary w1
     /\ exists line,
          stdout (exec (tick (Num n) oracle) w) = (stdout w1 ++ [line])%list)
  /\ (~ (n * 5 | sent w1) -> tick (Num n) oracle w = (Normal tt, w1)).
Proof.
  intros Hn w1. subst w1. split.
  - intros Hd.
    assert (summary_due (Num n) (exec (write_loop (Num n) oracle) w) = true) as E.
    { apply summary_due_iff. eauto. }
    assert (tick (Num n) oracle w
            = printSummary (exec (write_loop (Num n) oracle) w)) as Ht.
    { rewrite tick_eq. cbn zeta. rewrite E. reflexivity. }
    split; [exact Ht|]. unfold exec at 1. rewrite Ht. apply printSummary_stdout.
  - intros Hd.
    assert (summary_due (Num n) (exec (write_loop (Num n) oracle) w) = false) as E.
    { destruct (summary_due _ _) eqn:E; [|reflexivity].
      apply summary_due_iff in E. destruct E as (m & Hm & _ & H).
      inversion Hm. subst. contradiction. }
    rewrite tick_eq. cbn zeta. rewrite E. reflexivity.
Qed.

Lemma summary_after_batch_witness :
  exists line,
    stdout (exec (tick (Num 3) (always (Rejected (Rejection "fetch failed")))) initial)
    = [line].
Proof.
  destruct (summary_after_batch 3
              (always (Rejected (Rejection "fetch failed"))) initial)
    as [H _]; [lia|].
  destruct H as [_ [line H]].
  - exists 0. vm_compute. reflexivity.
  - exists line. rewrite H. vm_compute. reflexivity.
Defined.

(** C7 as stated fails: with three clients, [sent] goes from 14 to 17 during
    the sixth batch and crosses 15, a multiple of [5 * 3], yet the batch
    emits no summary: the output is what it was before the batch. *)
Lemma crossing_without_summary :
  let w := exec (tick (Num 3) (always (Resolved VUndefined))) five_batches in
  sent five_batches = 14 /\ sent w = 17
  /\ crosses_multiple (sent five_batches) (sent w) (5 * 3)
  /\ stdout w = stdout five_batches.
Proof.
  vm_compute. repeat split; try reflexivity.
  exists 1. vm_compute. split; [reflexivity | discriminate].
Qed.

(** ** The summary of an empty sample set *)

(** C2, as the code has it: when there is no sample, the summary reports the
    average, the minimum and the maximum as the marker ["-"], and the p95 as
    the number 0, the value [pct] returns for an empty array (line 96); the
    line printed ends in [avg:-ms min:-ms max:-ms p95:0ms samples:0]. *)
Theorem empty_summary (w : World) :
  samples w = [] ->
  derive w = (Normal (mkDerived (VStr "-") (VStr "-") (VStr "-") (VNum (Num 0))), w)
  /\ stdout (exec printSummary w) =
       (stdout w ++
          [("SENT:" ++ count_string (sent w) ++ " RECV:" ++ count_string (received w)
            ++ " ERR:" ++ count_string (errors w)
            ++ " | avg:-ms min:-ms max:-ms p95:0ms samples:0")%string])%list.
Proof.
  intros He.
  assert (pct (latencies w) 95 w = (Normal (VNum (Num 0)), w)) as Hp.
  { rewrite pct_eq. fold (samples w). rewrite He. reflexivity. }
  assert (derive w
          = (Normal (mkDerived (VStr "-") (VStr "-") (VStr "-") (VNum (Num 0))), w))
    as Hd.
  { rewrite derive_eq. unfold exec. rewrite Hp, He. reflexivity. }
  split; [exact Hd|].
  unfold exec. rewrite printSummary_eq. unfold exec. rewrite Hd.
  cbn [fst snd stdout]. unfold summary_line. rewrite He. reflexivity.
Qed.

Lemma empty_summary_witness :
  stdout (exec printSummary initial)
  = ["SENT:0 RECV:0 ERR:0 | avg:-ms min:-ms max:-ms p95:0ms samples:0"].
Proof.
  destruct (empty_summary initial) as [_ H].
  - vm_compute. reflexivity.
  - rewrite H. vm_compute. reflexivity.
Defined.

(** C2 as stated fails: at program start there is no sample, and the p95 of
    the summary is the number 0, not the marker that stands for the average,
    the minimum and the maximum. *)
Lemma p95_of_nothing_is_zero :
  samples initial = []
  /\ exists d, fst (derive initial) = Normal d
       /\ d_avg d = VStr "-" /\ d_min d = VStr "-" /\ d_max d = VStr "-"
       /\ d_p95 d = VNum (Num 0) /\ d_p95 d <> VStr "-".
Proof.
  split; [reflexivity|].
  exists (mkDerived (VStr "-") (VStr "-") (VStr "-") (VNum (Num 0))).
  repeat split; try reflexivity. discriminate.
Qed.

(** ** The client count *)

(** C3, as the code has it: when the argument is omitted, or empty, the
    client count is 1000; any other argument goes through
    [parseInt(_, 10)], and the count is [NaN] when no decimal digit follows
    the leading white space and the sign of the argument. *)
Theorem client_count_default (arg : option string) :
  (arg = None \/ arg = Some "" -> CLIENT_COUNT arg = Num 1000)
  /\ (forall s, arg = Some s -> s <> "" ->
        CLIENT_COUNT arg = ParseInt.parseInt s
        /\ (ParseInt.leading_digits
              (snd (ParseInt.split_sign (ParseInt.skip_white s))) = [] ->
            CLIENT_COUNT arg = NaN)).
Proof.
  split.
  - intros [-> | ->]; reflexivity.
  - intros s -> Hs.
    assert (CLIENT_COUNT (Some s) = ParseInt.parseInt s) as E.
    { destruct s; [contradiction | reflexivity]. }
    split; [exact E|]. intros Hd. rewrite E. unfold ParseInt.parseInt.
    destruct (ParseInt.split_sign (ParseInt.skip_white s)) as [sg body].
    simpl in Hd. rewrite Hd. reflexivity.
Qed.

Lemma client_count_default_witness : CLIENT_COUNT None = Num 1000.
Proof.
  apply (client_count_default None). left. reflexivity.
Defined.

(** C3 as stated fails: the argument [abc] is not numeric, and the client
    count is [NaN], not 1000. *)
Lemma client_count_not_numeric :
  ParseInt.parseInt "abc" = NaN
  /\ CLIENT_COUNT (Some "abc") = NaN
  /\ CLIENT_COUNT (Some "abc") <> Num 1000.
Proof. repeat split. discriminate. Qed.

(** ** Sorting *)

Lemma insert_by_perm cmp x l : Permutation (insert_by cmp x l) (x :: l).
Proof.
  induction l as [|y l IH]; simpl; [reflexivity|].
  destruct (comes_after cmp x y); [|reflexivity].
  rewrite IH. apply perm_swap.
Qed.

(** The sort rearranges the array, whatever the comparator answers. *)
Lemma sort_by_perm cmp l : Permutation (sort_by cmp l) l.
Proof.
  induction l as [|x l IH]; simpl; [reflexivity|].
  rewrite insert_by_perm. apply perm_skip, IH.
Qed.

Lemma sort_by_length cmp l : length (sort_by cmp l) = length l.
Proof. apply Permutation_length, sort_by_perm. Qed.

Lemma insert_by_sorted x l :
  x <> NaN -> Forall (fun y => y <> NaN) l ->
  Sorted num_le l -> Sorted num_le (insert_by js_asc x l).
Proof.
  intros Hx Hl Hs. induction l as [|y l IH]; simpl.
  - repeat constructor.
  - inversion Hl as [|? ? Hy Hl']; subst. inversion Hs as [|? ? Hs' Hhd]; subst.
    destruct x as [|a]; [contradiction|]. destruct y as [|b]; [contradiction|].
    unfold comes_after, js_asc. simpl.
    destruct (Z.ltb_spec 0 (a - b)) as [Hab|Hab].
    + constructor; [apply IH; assumption|].
      destruct l as [|c l]; simpl.
      * constructor. simpl. lia.
      * destruct (comes_after _ (Num a) c).
        -- constructor. inversion Hhd; assumption.
        -- constructor. simpl. lia.
    + constructor; [assumption|]. constructor. simpl. lia.
Qed.

(** On samples without [NaN] the comparator is an order and the sort puts
    them in ascending order. *)
Lemma sort_by_sorted l :
  Forall (fun y => y <> NaN) l -> Sorted num_le (sort_by js_asc l).
Proof.
  induction 1 as [|x l Hx Hl IH]; simpl; [constructor|].
  apply insert_by_sorted; [exact Hx| |exact IH].
  rewrite sort_by_perm. exact Hl.
Qed.

(** ** The index of [pct] *)

Lemma round_nat_cases a :
  2 ^ 53 <= a ->
  let k := Z.log2 a - 52 in
  let q := a / 2 ^ k in
  let r := a mod 2 ^ k in
  1 <= k /\ 2 ^ 52 * 2 ^ k <= a < 2 ^ 53 * 2 ^ k
  /\ Binary64.round_nat a =
       (if 2 * r <? 2 ^ k then q
        else if 2 ^ k <? 2 * r then q + 1
        else if Z.even q then q else q + 1, k).
Proof.
  intros Ha k q r.
  assert (53 <= Z.log2 a) as Hlog.
  { rewrite <- (Z.log2_pow2 53) by lia. apply Z.log2_le_mono, Ha. }
  assert (1 <= k) as Hk by (unfold k; lia).
  destruct (Z.log2_spec a) as [Hlo Hhi]; [lia|].
  split; [exact Hk|]. split.
  - rewrite <- !Z.pow_add_r by lia.
    replace (52 + k) with (Z.log2 a) by (unfold k; lia).
    replace (53 + k) with (Z.succ (Z.log2 a)) by (unfold k; lia). lia.
  - unfold Binary64.round_nat. fold k.
    destruct (Z.leb_spec k 0) as [?|_]; [lia|].
    rewrite Z.shiftr_div_pow2, Z.land_ones, Z.shiftl_1_l by lia.
    fold q r.
    assert (2 ^ k = 2 * 2 ^ (k - 1)) as Hp.
    { rewrite <- Z.pow_succ_r by lia. f_equal. lia. }
    destruct (Z.ltb_spec r (2 ^ (k - 1))), (Z.ltb_spec (2 * r) (2 ^ k)); try lia;
      [reflexivity|].
    destruct (Z.ltb_spec (2 ^ (k - 1)) r), (Z.ltb_spec (2 ^ k) (2 * r)); try lia;
      [reflexivity|].
    destruct (Z.even q); reflexivity.
Qed.

Lemma rounded_bounds n q r K J F rho q' :
  1 <= n < 2 ^ 32 ->
  J * K = 2 ^ 53 -> 2 <= K -> 2 ^ 21 <= J ->
  0 <= r < K ->
  20 * (q * K + r) = (20 * F + rho) * 2 ^ 53 - 8 * n ->
  0 <= rho <= 19 ->
  q * K + r < 2 ^ 53 * K ->
  q' = (if 2 * r <? K then q
        else if K <? 2 * r then q + 1
        else if Z.even q then q else q + 1) ->
  19 * n = 20 * F + rho ->
  F * J <= q' < (F + 1) * J.
Proof.
  intros Hn HJK HK HJ Hr E Hrho Hup Hq' HF.
  change (2 ^ 53) with 9007199254740992 in *.
  change (2 ^ 32) with 4294967296 in *.
  change (2 ^ 21) with 2097152 in *.
  assert (0 <= F) as HF0 by lia.
  (* q + 1 < (F + 1) * J *)
  assert (q + 1 < (F + 1) * J) as Hupper.
  { destruct (Z.lt_ge_cases (q + 1) ((F + 1) * J)) as [H|H]; [exact H|exfalso].
    assert ((F + 1) * J * K <= (q + 1) * K) as H1
      by (apply Z.mul_le_mono_nonneg_r; lia).
    replace ((F + 1) * J * K) with ((F + 1) * 9007199254740992) in H1
      by (rewrite <- HJK; ring).
    assert (9007199254740992 < 20 * K) as H2 by lia.
    rewrite <- HJK in H2. nia. }
  assert (q' <= q + 1) as Hq'1.
  { subst q'. destruct (_ <? _); [lia|]. destruct (_ <? _); [lia|].
    destruct (Z.even q); lia. }
  assert (q <= q') as Hq'0.
  { subst q'. destruct (_ <? _); [lia|]. destruct (_ <? _); [lia|].
    destruct (Z.even q); lia. }
  split; [|lia].
  destruct (Z.eq_dec rho 0) as [Hz|Hnz].
  - (* the product is just below an integer: rounding goes up to it *)
    subst rho.
    assert (F <= K) as HFK by lia.
    assert (q < F * J) as Hq1.
    { destruct (Z.lt_ge_cases q (F * J)) as [H|H]; [exact H|exfalso].
      assert (F * J * K <= q * K) as H1 by (apply Z.mul_le_mono_nonneg_r; lia).
      replace (F * J * K) with (F * 9007199254740992) in H1
        by (rewrite <- HJK; ring).
      lia. }
    assert (F * J - 1 <= q) as Hq2.
    { destruct (Z.le_gt_cases (F * J - 1) q) as [H|H]; [exact H|exfalso].
      assert ((q + 2) * K <= F * J * K) as H1
        by (apply Z.mul_le_mono_nonneg_r; lia).
      replace (F * J * K) with (F * 9007199254740992) in H1
        by (rewrite <- HJK; ring).
      lia. }
    assert (q = F * J - 1) as Hq by lia.
    assert (q * K = F * 9007199254740992 - K) as HqK.
    { rewrite Hq, <- HJK. ring. }
    assert (K < 2 * r) as Hr2 by lia.
    subst q'.
    destruct (Z.ltb_spec (2 * r) K); [lia|].
    destruct (Z.ltb_spec K (2 * r)); lia.
  - (* the product is well above an integer *)
    assert (F * J <= q); [|lia].
    destruct (Z.le_gt_cases (F * J) q) as [H|H]; [exact H|exfalso].
    assert ((q + 1) * K <= F * J * K) as H1
      by (apply Z.mul_le_mono_nonneg_r; lia).
    replace (F * J * K) with (F * 9007199254740992) in H1
      by (rewrite <- HJK; ring).
    lia.
Qed.

Lemma div_95_100 : Binary64.div_by 95 100 = Binary64.Dy 8556839292003942 (-53).
Proof. vm_compute. reflexivity. Qed.

Lemma pct_index_95 (len : nat) :
  (0 < len)%nat -> Z.of_nat len < 2 ^ 32 ->
  pct_index 95 len = 95 * Z.of_nat len / 100.
Proof.
  intros Hpos Hlt. set (n := Z.of_nat len) in *.
  assert (1 <= n) as Hn1 by lia.
  assert (95 * n / 100 = 19 * n / 20) as ->.
  { replace (95 * n) with (5 * (19 * n)) by ring.
    change 100 with (5 * 20). apply Z.div_mul_cancel_l; lia. }
  unfold pct_index. rewrite div_95_100.
  unfold Binary64.mul_int, Binary64.round. cbn [Binary64.mant Binary64.expo].
  fold n. set (a := 8556839292003942 * n).
  assert (0 < a) as Ha0 by (unfold a; lia).
  rewrite (Z.abs_eq a), (Z.sgn_pos a) by lia.
  destruct (Z.eq_dec n 1) as [->|Hn2].
  { vm_compute. reflexivity. }
  assert (2 ^ 53 <= a) as Ha by (unfold a; change (2 ^ 53) with 9007199254740992; lia).
  destruct (round_nat_cases a Ha) as (Hk & [Hlo Hhi] & ->).
  set (k := Z.log2 a - 52) in *.
  set (q := a / 2 ^ k). set (r := a mod 2 ^ k).
  set (q' := if 2 * r <? 2 ^ k then q else _).
  assert (k <= 32) as Hk32.
  { assert (2 ^ k < 2 ^ 33) as H.
    { change (2 ^ 52) with 4503599627370496 in Hlo.
      change (2 ^ 33) with 8589934592.
      change (2 ^ 32) with 4294967296 in Hlt. unfold a in Hlo. lia. }
    apply Z.pow_lt_mono_r_iff in H; lia. }
  unfold Binary64.floor. cbn [Binary64.mant Binary64.expo].
  destruct (Z.leb_spec 0 (-53 + k)) as [?|_]; [lia|].
  rewrite Z.mul_1_l, Z.shiftr_div_pow2 by lia.
  replace (- (-53 + k)) with (53 - k) by lia.
  set (F := 19 * n / 20). set (rho := (19 * n) mod 20).
  assert (19 * n = 20 * F + rho) as HF by (apply Z.div_mod; lia).
  assert (0 <= rho < 20) as Hrho by (apply Z.mod_pos_bound; lia).
  assert (0 < 2 ^ k) as HK0 by (apply Z.pow_pos_nonneg; lia).
  assert (a = 2 ^ k * q + r) as Hdm by (apply Z.div_mod; lia).
  assert (0 <= r < 2 ^ k) as Hr by (apply Z.mod_pos_bound; lia).
  assert (2 ^ (53 - k) * 2 ^ k = 2 ^ 53) as HJK.
  { rewrite <- Z.pow_add_r by lia. f_equal. lia. }
  assert (2 ^ 21 <= 2 ^ (53 - k)) as HJ by (apply Z.pow_le_mono_r; lia).
  assert (2 <= 2 ^ k) as HK2.
  { change 2 with (2 ^ 1) at 1. apply Z.pow_le_mono_r; lia. }
  destruct (rounded_bounds n q r (2 ^ k) (2 ^ (53 - k)) F rho q') as [B1 B2];
    try assumption; try lia.
  symmetry. apply (Z.div_unique _ _ F (q' - F * 2 ^ (53 - k))); lia.
Qed.

Lemma pct_95_eq w arr :
  deref w arr <> [] ->
  Z.of_nat (length (deref w arr)) < 2 ^ 32 ->
  fst (pct arr 95 w) =
    Normal (element (sort_by js_asc (deref w arr))
              (Z.min (95 * Z.of_nat (length (deref w arr)) / 100)
                     (Z.of_nat (length (deref w arr)) - 1))).
Proof.
  intros Hl Hn. rewrite pct_eq.
  destruct (deref w arr) as [|y l'] eqn:El; [contradiction|].
  rewrite <- El in *. cbn zeta. cbn [fst].
  rewrite sort_by_length, pct_index_95; [reflexivity| |exact Hn].
  rewrite El. simpl. lia.
Qed.

Lemma num_le_trans : Transitive num_le.
Proof.
  intros [|x] [|y] [|z]; simpl; try contradiction. lia.
Qed.

Lemma num_le_antisym : AntiSymm (=) num_le.
Proof.
  intros [|x] [|y]; simpl; try contradiction. intros. f_equal. lia.
Qed.

(** Samples without [NaN] have one ascending arrangement: every sort
    leaves the same array. *)
Lemma ascending_unique (l s1 s2 : list num) :
  Permutation s1 l -> Sorted num_le s1 ->
  Permutation s2 l -> Sorted num_le s2 -> s1 = s2.
Proof.
  intros P1 S1 P2 S2.
  apply (@Sorted_unique _ num_le num_le_trans num_le_antisym); try assumption.
  rewrite P1, P2. reflexivity.
Qed.

(** C4: for every array of samples that is not empty, [pct(arr, 95)]
    returns one of the samples, none interpolated, and the index
    [min(floor(0.95 * n), n - 1)] it reads is inside the array, where [n]
    is the number of samples ([n < 2^32], the bound on the length of an
    array).  When no sample is [NaN], the samples have exactly one
    ascending arrangement, the sort of line 97 produces it, and the result
    is its element at that index.  Over the ten samples 10, 20, ..., 100,
    in this or another order, the result is 100. *)
Theorem p95_nearest_rank :
  (forall (w : World) (arr : loc),
     let l := deref w arr in
     let n := Z.of_nat (length l) in
     let i := Z.min (95 * n / 100) (n - 1) in
     l <> [] -> n < 2 ^ 32 ->
     0 <= i < n
     /\ (exists x, fst (pct arr 95 w) = Normal (VNum x) /\ In x l)
     /\ (Forall (fun x => x <> NaN) l ->
         forall ascending,
           Permutation ascending l -> Sorted num_le ascending ->
           ascending = sort_by js_asc l
           /\ exists x, ascending !! Z.to_nat i = Some x
                        /\ fst (pct arr 95 w) = Normal (VNum x)))
  /\ Sorted num_le (sort_by js_asc (samples ten_samples_unordered))
  /\ fst (pct (latencies ten_samples) 95 ten_samples) = Normal (VNum (Num 100))
  /\ fst (pct (latencies ten_samples_unordered) 95 ten_samples_unordered)
     = Normal (VNum (Num 100)).
Proof.
  split; [|split; [|split; vm_compute; reflexivity]].
  2:{ apply sort_by_sorted. vm_compute. repeat constructor; discriminate. }
  intros w arr l n i Hl Hn.
  assert (0 < n) as Hpos.
  { unfold n. destruct l; [contradiction | simpl; lia]. }
  assert (0 <= i < n) as Hi.
  { unfold i. pose proof (Z.div_pos (95 * n) 100). lia. }
  assert (length (sort_by js_asc l) = length l) as Hlen by apply sort_by_length.
  destruct (lookup_lt_is_Some_2 (sort_by js_asc l) (Z.to_nat i)) as [x Hx];
    [lia|].
  assert (fst (pct arr 95 w) = Normal (VNum x)) as Hp.
  { rewrite pct_95_eq by assumption. fold l n i.
    unfold element. destruct (Z.ltb_spec i 0); [lia|]. rewrite Hx. reflexivity. }
  split; [exact Hi|]. split.
  - exists x. split; [exact Hp|].
    apply (Permutation_in x (sort_by_perm js_asc l)).
    apply list_elem_of_In. eapply list_elem_of_lookup_2, Hx.
  - intros Hnan ascending Hperm Hsorted.
    assert (ascending = sort_by js_asc l) as ->.
    { apply (ascending_unique l); auto using sort_by_perm, sort_by_sorted. }
    split; [reflexivity|]. exists x. split; [exact Hx | exact Hp].
Qed.

Lemma p95_nearest_rank_witness :
  exists x,
    List.map Num [10; 20; 30; 40; 50; 60; 70; 80; 90; 100] !! 9%nat = Some x
    /\ fst (pct 0%nat 95 ten_samples_unordered) = Normal (VNum x).
Proof.
  destruct p95_nearest_rank as [H _].
  destruct (H ten_samples_unordered 0%nat) as (_ & _ & Ha).
  - vm_compute. discriminate.
  - vm_compute. reflexivity.
  - destruct (Ha) with
      (ascending := List.map Num [10; 20; 30; 40; 50; 60; 70; 80; 90; 100])
      as (_ & x & Hx & Hp).
    + vm_compute. repeat constructor; discriminate.
    + vm_compute.
      apply (Permutation_cons_app
               (List.map Num [100; 20; 30; 40; 50; 60; 70; 80; 90]) []
               (Num 10)).
      symmetry.
      apply (Permutation_cons_append
               (List.map Num [20; 30; 40; 50; 60; 70; 80; 90]) (Num 100)).
    + simpl. repeat constructor; simpl; lia.
    + exists x. split; [exact Hx | exact Hp].
Defined.

(** * Further properties of the program *)

(** ** Decimal numerals and [parseInt] *)

Lemma digit_of_numeral (d : Decimal.uint) rest :
  d <> Decimal.Nil ->
  exists c s, (NilEmpty.string_of_uint d ++ rest)%string = String c s
              /\ ParseInt.digit c <> None /\ ParseInt.is_white c = false
              /\ c <> "-"%char /\ c <> "+"%char.
Proof.
  intros Hd. destruct d; [contradiction|..];
    (eexists; eexists; split; [reflexivity|]; repeat split; discriminate).
Qed.

Lemma append_cons c (s t : string) : (String c s ++ t)%string = String c (s ++ t)%string.
Proof. reflexivity. Qed.

Lemma value_of_numeral_acc (d : Decimal.uint) rest acc :
  ParseInt.leading_digits rest = [] ->
  fold_left (fun a x => 10 * a + x)
    (ParseInt.leading_digits (NilEmpty.string_of_uint d ++ rest)%string) (Z.pos acc)
  = Z.pos (Pos.of_uint_acc d acc).
Proof.
  intros Hrest. revert acc.
  induction d as [|d IH|d IH|d IH|d IH|d IH|d IH|d IH|d IH|d IH|d IH]; intros acc;
    [change (NilEmpty.string_of_uint Decimal.Nil ++ rest)%string with rest;
     rewrite Hrest; reflexivity|..];
    (cbn [NilEmpty.string_of_uint]; rewrite append_cons;
     cbn [ParseInt.leading_digits]; unfold ParseInt.digit at 1;
     cbn [nat_of_ascii]; simpl (_ && _)%bool; cbv iota; cbn [fold_left];
     cbn [Pos.of_uint_acc]; rewrite <- IH; f_equal;
     match goal with
     | |- context [Z.of_nat (nat_of_ascii ?c)] =>
         let v := eval vm_compute in (Z.of_nat (nat_of_ascii c)) in
         change (Z.of_nat (nat_of_ascii c)) with v
     end; lia).
Qed.

Lemma value_of_numeral (d : Decimal.uint) rest :
  ParseInt.leading_digits rest = [] ->
  ParseInt.value_of
    (ParseInt.leading_digits (NilEmpty.string_of_uint d ++ rest)%string)
  = Z.of_N (Pos.of_uint d).
Proof.
  intros Hrest. unfold ParseInt.value_of.
  induction d as [|d IH|d IH|d IH|d IH|d IH|d IH|d IH|d IH|d IH|d IH];
    [change (NilEmpty.string_of_uint Decimal.Nil ++ rest)%string with rest;
     rewrite Hrest; reflexivity
    |cbn [NilEmpty.string_of_uint]; rewrite append_cons;
     cbn [ParseInt.leading_digits]; unfold ParseInt.digit at 1;
     cbn [nat_of_ascii]; simpl (_ && _)%bool; cbv iota; cbn [fold_left];
     exact IH
    |..];
    (cbn [NilEmpty.string_of_uint]; rewrite append_cons;
     cbn [ParseInt.leading_digits]; unfold ParseInt.digit at 1;
     cbn [nat_of_ascii]; simpl (_ && _)%bool; cbv iota; cbn [fold_left];
     cbn [Pos.of_uint N.of_uint Z.of_N];
     rewrite <- (value_of_numeral_acc d rest _ Hrest); f_equal).
Qed.

(** [parseInt(String(z) + rest, 10)] is [z] when [rest] does not go on with a
    digit. *)
Lemma parseInt_numeral (z : Z) (rest : string) :
  ParseInt.leading_digits rest = [] ->
  ParseInt.parseInt (JsNum.to_string (Num z) ++ rest)%string = Num z.
Proof.
  intros Hrest. unfold JsNum.to_string.
  pose proof (DecimalZ.of_to z) as Hz.
  destruct (Z.to_int z) as [d|d] eqn:E.
  - assert (d <> Decimal.Nil) as Hd.
    { destruct z; simpl in E; inversion E; subst;
        [discriminate | apply DecimalPos.Unsigned.to_uint_nonnil]. }
    destruct (digit_of_numeral d rest Hd) as (c & s & Hs & Hdig & Hw & Hm & Hp).
    unfold ParseInt.parseInt. cbn [NilEmpty.string_of_int].
    pose proof (value_of_numeral d rest Hrest) as Hv.
    rewrite Hs in *. cbn [ParseInt.skip_white]. rewrite Hw.
    assert (ParseInt.split_sign (String c s) = (1, String c s)) as ->.
    { unfold ParseInt.split_sign.
      destruct c as [[|] [|] [|] [|] [|] [|] [|] [|]]; try reflexivity;
        congruence. }
    destruct (ParseInt.leading_digits (String c s)) as [|x l] eqn:El.
    + exfalso. cbn [ParseInt.leading_digits] in El.
      destruct (ParseInt.digit c); [discriminate | contradiction].
    + rewrite Hv. simpl in Hz. f_equal. unfold Z.of_uint in Hz. lia.
  - assert (d <> Decimal.Nil) as Hd.
    { destruct z; simpl in E; inversion E; subst.
      apply DecimalPos.Unsigned.to_uint_nonnil. }
    destruct (digit_of_numeral d rest Hd) as (c & s & Hs & Hdig & Hw & Hm & Hp).
    unfold ParseInt.parseInt. cbn [NilEmpty.string_of_int].
    rewrite append_cons. cbn [ParseInt.skip_white].
    change (ParseInt.is_white "-") with false. cbv iota.
    change (ParseInt.split_sign (String "-" (NilEmpty.string_of_uint d ++ rest)%string))
      with (-1, (NilEmpty.string_of_uint d ++ rest)%string).
    pose proof (value_of_numeral d rest Hrest) as Hv.
    rewrite Hs in *.
    destruct (ParseInt.leading_digits (String c s)) as [|x l] eqn:El.
    + exfalso. cbn [ParseInt.leading_digits] in El.
      destruct (ParseInt.digit c); [discriminate | contradiction].
    + rewrite Hv. simpl in Hz. f_equal. unfold Z.of_uint in Hz. lia.
Qed.


Lemma to_string_nonempty z rest : (JsNum.to_string (Num z) ++ rest)%string <> "".
Proof.
  unfold JsNum.to_string. destruct (Z.to_int z) as [d|d] eqn:E.
  - assert (d <> Decimal.Nil) as Hd.
    { destruct z; simpl in E; inversion E; subst;
        [discriminate | apply DecimalPos.Unsigned.to_uint_nonnil]. }
    destruct (digit_of_numeral d rest Hd) as (c & s & Hs & _).
    cbn [NilEmpty.string_of_int]. rewrite Hs. discriminate.
  - cbn [NilEmpty.string_of_int]. rewrite append_cons. discriminate.
Qed.

Lemma to_string_truthy z : JsValue.truthy (VStr (JsNum.to_string (Num z))) = true.
Proof.
  pose proof (to_string_nonempty z "") as H.
  assert (JsNum.to_string (Num z) <> "") as H'.
  { intros E. apply H. rewrite E. reflexivity. }
  unfold JsValue.truthy. apply negb_true_iff, String.eqb_neq, H'.
Qed.

Lemma append_empty (s : string) : (s ++ "")%string = s.
Proof.
  induction s as [|c s IH]; [reflexivity|]. rewrite append_cons, IH. reflexivity.
Qed.

Lemma parseInt_of_numeral z :
  JsValue.parseInt (VStr (JsNum.to_string (Num z))) = Num z.
Proof.
  unfold JsValue.parseInt, JsValue.to_string.
  pose proof (parseInt_numeral z "" eq_refl) as H.
  rewrite append_empty in H. exact H.
Qed.

(** A text without a digit after the white space and the sign is no
    number. *)
Lemma parseInt_no_digit (s : string) :
  ParseInt.leading_digits (snd (ParseInt.split_sign (ParseInt.skip_white s))) = [] ->
  ParseInt.parseInt s = NaN.
Proof.
  unfold ParseInt.parseInt.
  destruct (ParseInt.split_sign (ParseInt.skip_white s)) as [sign body].
  cbn [snd]. intros ->. reflexivity.
Qed.

(** X1: a number written with [toString()] is read back by [parseInt(_, 10)]:
    for every integer [z] of the range in which the doubles are exact, up
    to [2^53] in absolute value, [parseInt] of the numeral of [z] is [z],
    also when the numeral is followed by text that does not start with a
    digit; the numeral is never the empty string, so a field that holds it
    is truthy. *)
Theorem numeral_round_trip (z : Z) (rest : string) :
  Z.abs z <= 2 ^ 53 ->
  ParseInt.leading_digits rest = [] ->
  JsValue.parseInt (VStr (JsNum.to_string (Num z) ++ rest)) = Num z
  /\ JsValue.parseInt (VNum (Num z)) = Num z
  /\ JsValue.truthy (VStr (JsNum.to_string (Num z))) = true.
Proof.
  intros _ Hrest. split; [|split].
  - apply parseInt_numeral, Hrest.
  - apply (parseInt_of_numeral z).
  - apply to_string_truthy.
Qed.

Lemma numeral_round_trip_witness :
  JsValue.parseInt (VStr (JsNum.to_string (Num 1700000000000) ++ ".5"))
  = Num 1700000000000.
Proof.
  apply (numeral_round_trip 1700000000000 ".5"); [|reflexivity].
  vm_compute. discriminate.
Defined.

(** X2: a client count given as a decimal numeral is the client count of the
    program: for every integer [z] up to [2^53] in absolute value, the
    argument made of the numeral of [z], followed or not by text that does
    not start with a digit, gives [CLIENT_COUNT = z]. *)
Theorem client_count_numeral (z : Z) (rest : string) :
  Z.abs z <= 2 ^ 53 ->
  ParseInt.leading_digits rest = [] ->
  CLIENT_COUNT (Some (JsNum.to_string (Num z) ++ rest)%string) = Num z.
Proof.
  intros _ Hrest. unfold CLIENT_COUNT.
  pose proof (to_string_nonempty z rest) as Hne.
  assert (or_default (Some (JsNum.to_string (Num z) ++ rest)%string) "1000"
          = (JsNum.to_string (Num z) ++ rest)%string) as ->.
  { destruct (JsNum.to_string (Num z) ++ rest)%string; [contradiction | reflexivity]. }
  apply parseInt_numeral, Hrest.
Qed.

Lemma client_count_numeral_witness :
  CLIENT_COUNT (Some (JsNum.to_string (Num 250) ++ " clients")%string) = Num 250.
Proof.
  apply (client_count_numeral 250 " clients"); [|reflexivity].
  vm_compute. discriminate.
Defined.

(** ** The handler, for every payload *)

Lemma on_change_records myId now payload w :
  event_id payload = VStr myId ->
  JsValue.truthy (event_ts payload) = true ->
  JsValue.unprintable (event_ts payload) = false ->
  on_change myId now payload w
  = (Normal tt,
     with_sample (JsNum.sub (Num now) (JsValue.parseInt (event_ts payload))) w).
Proof.
  intros Hid Hts Hpr. apply strict_eq_str_true in Hid.
  rewrite on_change_eq, Hid, Hts, Hpr. reflexivity.
Qed.

(** C8, as the code has it: a change with the identity of the session and
    a timestamp that is truthy (as line 42 tests it) and that [parseInt]
    can convert to a string is counted once in [received] and appends
    exactly one sample; [sent] and [errors] stay as they were.  The sample
    is [now - parseInt(timestamp, 10)]: within the range in which the
    doubles are exact, it is [now - t] when [parseInt] reads the integer
    [t], as it does when the timestamp is the number [t] or a text that
    starts with the numeral of [t]; it is [NaN] when [parseInt] reads no
    number, as when the text has no digit after its leading white space
    and sign. *)
Theorem present_timestamp_recorded
    (myId : string) (now : Z) (payload : value) (w : World) :
  event_id payload = VStr myId ->
  JsValue.truthy (event_ts payload) = true ->
  JsValue.unprintable (event_ts payload) = false ->
  let w' := exec (on_change myId now payload) w in
  fst (on_change myId now payload w) = Normal tt
  /\ (exists sample, samples w' = (samples w ++ [sample])%list)
  /\ received w' = received w + 1
  /\ sent w' = sent w
  /\ errors w' = errors w
  /\ (forall t : Z,
        prints_exactly (event_ts payload) = true ->
        JsValue.parseInt (event_ts payload) = Num t ->
        Z.abs t <= 2 ^ 53 -> Z.abs now <= 2 ^ 53 -> Z.abs (now - t) <= 2 ^ 53 ->
        samples w' = (samples w ++ [Num (now - t)])%list)
  /\ (JsValue.parseInt (event_ts payload) = NaN ->
      samples w' = (samples w ++ [NaN])%list)
  /\ (forall (t : Z) (rest : string),
        Z.abs t <= 2 ^ 53 -> Z.abs now <= 2 ^ 53 -> Z.abs (now - t) <= 2 ^ 53 ->
        ParseInt.leading_digits rest = [] ->
        event_ts payload = VStr (JsNum.to_string (Num t) ++ rest)
        \/ event_ts payload = VNum (Num t) ->
        samples w' = (samples w ++ [Num (now - t)])%list)
  /\ (forall s : string,
        event_ts payload = VStr s ->
        ParseInt.leading_digits
          (snd (ParseInt.split_sign (ParseInt.skip_white s))) = [] ->
        samples w' = (samples w ++ [NaN])%list).
Proof.
  intros Hid Hts Hpr w'.
  pose proof (on_change_records myId now payload w Hid Hts Hpr) as E.
  assert (samples w' =
            (samples w
             ++ [JsNum.sub (Num now) (JsValue.parseInt (event_ts payload))])%list)
    as Hs.
  { subst w'. unfold exec. rewrite E. apply samples_with_sample. }
  split; [rewrite E; reflexivity|]. split; [eexists; exact Hs|].
  split; [subst w'; unfold exec; rewrite E; reflexivity|].
  split; [subst w'; unfold exec; rewrite E; reflexivity|].
  split; [subst w'; unfold exec; rewrite E; reflexivity|].
  split; [|split; [|split]].
  - intros t _ Ht _ _ _. rewrite Hs, Ht. reflexivity.
  - intros Ht. rewrite Hs, Ht. reflexivity.
  - intros t rest _ _ _ Hrest [Ht|Ht]; rewrite Hs, Ht.
    + unfold JsValue.parseInt, JsValue.to_string.
      rewrite (parseInt_numeral t rest Hrest). reflexivity.
    + change (JsValue.parseInt (VNum (Num t)))
        with (JsValue.parseInt (VStr (JsNum.to_string (Num t)))).
      rewrite parseInt_of_numeral. reflexivity.
  - intros s Ht Hnone. rewrite Hs, Ht.
    unfold JsValue.parseInt, JsValue.to_string.
    rewrite (parseInt_no_digit s Hnone). reflexivity.
Qed.

Lemma present_timestamp_recorded_witness :
  let w' := exec (on_change "client-0" 1700000000123
                    (change_of "client-0" (VStr "1700000000000"))) initial in
  samples w' = [Num 123] /\ received w' = 1.
Proof.
  destruct (present_timestamp_recorded "client-0" 1700000000123
              (change_of "client-0" (VStr "1700000000000")) initial)
    as (_ & _ & Hr & _ & _ & _ & _ & Hnum & _); try (vm_compute; reflexivity).
  split; [|exact Hr].
  apply (Hnum 1700000000000 ""); try (vm_compute; discriminate).
  - reflexivity.
  - left. vm_compute. reflexivity.
Defined.

(** C8 as stated fails.  The timestamp [0] is present and parses as an
    integer, the identity is the session's, and the change is dropped:
    the world is unchanged.  The timestamp [{"toString": 1}], as a JSON
    column can hold it, is present as well; [parseInt] throws on it, no
    sample is appended, [received] stays and [errors] is incremented. *)
Lemma present_timestamp_not_recorded :
  let zero := change_of "client-0" (VNum (Num 0)) in
  let object := change_of "client-0" (VObj {[ "toString" := VNum (Num 1) ]}) in
  let w' := exec (on_change "client-0" 1700000000123 object) initial in
  event_id zero = VStr "client-0"
  /\ event_ts zero = VNum (Num 0)
  /\ JsValue.parseInt (event_ts zero) = Num 0
  /\ on_change "client-0" 1700000000123 zero initial = (Normal tt, initial)
  /\ event_id object = VStr "client-0"
  /\ event_ts object = VObj {[ "toString" := VNum (Num 1) ]}
  /\ samples initial = [] /\ samples w' = []
  /\ received initial = 0 /\ received w' = 0
  /\ errors initial = 0 /\ errors w' = 1.
Proof. vm_compute. repeat split. Qed.

Lemma handler_effect myId now payload w :
  let w' := exec (on_change myId now payload) w in
  sent w' = sent w
  /\ stdout w' = stdout w /\ stderr w' = stderr w
  /\ latencies w' = latencies w
  /\ errors w' = errors w + (if handler_throws myId payload then 1 else 0)
  /\ ((received w' = received w /\ samples w' = samples w)
      \/ (handler_throws myId payload = false
          /\ received w' = received w + 1
          /\ exists x, samples w' = (samples w ++ [x])%list)).
Proof.
  cbn zeta. rewrite on_change_errors.
  unfold exec, handler_throws. rewrite on_change_eq.
  destruct (_ && _); cbn [andb].
  - destruct (JsValue.unprintable _); cbn [snd].
    + repeat split. left. split; reflexivity.
    + repeat split. right. split; [reflexivity|]. split; [reflexivity|].
      eexists. apply samples_with_sample.
  - repeat split. left. split; reflexivity.
Qed.

(** X3: whatever the payload, the handler completes normally and touches
    neither [sent], nor the output, nor the reference [stats.latencies].
    What it does depends on two tests.  A change of another row, or one
    with a falsy timestamp, changes nothing.  A change of its own row with
    a truthy timestamp that [parseInt] cannot convert to a string enters
    the [catch] of line 48: [errors] grows by one, [received] and the
    samples stay.  Every other change of its own row adds one to
    [received] and one sample at the end, and [errors] stays. *)
Theorem handler_outcomes
    (myId : string) (now : Z) (payload : value) (w : World) :
  let w' := exec (on_change myId now payload) w in
  fst (on_change myId now payload w) = Normal tt
  /\ sent w' = sent w
  /\ stdout w' = stdout w /\ stderr w' = stderr w
  /\ latencies w' = latencies w
  /\ (if JsValue.strict_eq_str (event_id payload) myId
         && JsValue.truthy (event_ts payload)
      then
        if JsValue.unprintable (event_ts payload)
        then errors w' = errors w + 1
             /\ received w' = received w /\ samples w' = samples w
        else errors w' = errors w
             /\ received w' = received w + 1
             /\ exists sample, samples w' = (samples w ++ [sample])%list
      else w' = w).
Proof.
  cbn zeta. split; [apply on_change_normal|].
  unfold exec. rewrite on_change_eq.
  destruct (_ && _).
  - destruct (JsValue.unprintable _); cbn [snd].
    + repeat split.
    + repeat split. eexists. apply samples_with_sample.
  - repeat split.
Qed.

(** ** The echo of a write *)

Lemma new_of_change_payload eventType new old :
  field (change_payload eventType new old) "new" = new.
Proof. unfold change_payload, field. simplify_map_eq. reflexivity. Qed.

Lemma echo_of_periodic_row id sendTs eventType old :
  event_id (change_payload eventType (periodic_row id sendTs) old) = VStr id
  /\ event_ts (change_payload eventType (periodic_row id sendTs) old)
     = VStr (JsNum.to_string (Num sendTs)).
Proof.
  unfold event_id, event_ts. rewrite new_of_change_payload.
  unfold periodic_row, field. simplify_map_eq. split; reflexivity.
Qed.

Lemma echo_of_initial_row id sendTs eventType old :
  event_id (change_payload eventType (initial_row id sendTs) old) = VStr id
  /\ event_ts (change_payload eventType (initial_row id sendTs) old)
     = VStr (JsNum.to_string (Num sendTs)).
Proof.
  unfold event_id, event_ts. rewrite new_of_change_payload.
  unfold initial_row, field. simplify_map_eq. split; reflexivity.
Qed.

Lemma numeral_change_measured myId now payload sendTs w :
  event_id payload = VStr myId ->
  event_ts payload = VStr (JsNum.to_string (Num sendTs)) ->
  let w' := exec (on_change myId now payload) w in
  samples w' = (samples w ++ [Num (now - sendTs)])%list
  /\ received w' = received w + 1
  /\ sent w' = sent w /\ errors w' = errors w.
Proof.
  intros Hid Hts. cbn zeta.
  assert (on_change myId now payload w
          = (Normal tt, with_sample (Num (now - sendTs)) w)) as E.
  { rewrite (on_change_records myId now payload w Hid).
    - rewrite Hts, parseInt_of_numeral. reflexivity.
    - rewrite Hts. apply to_string_truthy.
    - rewrite Hts. reflexivity. }
  unfold exec. rewrite E. cbn [snd].
  split; [apply samples_with_sample|]. repeat split.
Qed.

(** X4: the write and its echo round-trip the timestamp.  When the handler
    of a client receives, at time [now], a change whose new row is the row
    this client upserted at [sendTs], be it the periodic row of line 79 or
    the initial row of line 60, it appends exactly the sample [now - sendTs]
    and adds one to [received]; [sent] and [errors] are unchanged.  So the
    echo of an initial row is counted in [received] although no initial
    upsert is counted in [sent]. *)
Theorem echo_measured
    (i : nat) (sendTs now : Z) (eventType : string) (old : value) (w : World) :
  (let w' := exec (on_change (makeId i) now
                     (change_payload eventType (periodic_row (makeId i) sendTs) old)) w in
   samples w' = (samples w ++ [Num (now - sendTs)])%list
   /\ received w' = received w + 1 /\ sent w' = sent w /\ errors w' = errors w)
  /\ (let w' := exec (on_change (makeId i) now
                        (change_payload eventType (initial_row (makeId i) sendTs) old)) w in
      samples w' = (samples w ++ [Num (now - sendTs)])%list
      /\ received w' = received w + 1 /\ sent w' = sent w /\ errors w' = errors w).
Proof.
  split.
  - destruct (echo_of_periodic_row (makeId i) sendTs eventType old) as [Hid Hts].
    exact (numeral_change_measured _ now _ sendTs w Hid Hts).
  - destruct (echo_of_initial_row (makeId i) sendTs eventType old) as [Hid Hts].
    exact (numeral_change_measured _ now _ sendTs w Hid Hts).
Qed.

(** ** One change, all clients *)

Lemma run_callbacks_app count cs1 cs2 w :
  exec (run_callbacks count (cs1 ++ cs2)%list) w
  = exec (run_callbacks count cs2) (exec (run_callbacks count cs1) w).
Proof.
  revert w. induction cs1 as [|c cs1 IH]; intros w; [reflexivity|].
  change ((c :: cs1) ++ cs2)%list with (c :: (cs1 ++ cs2))%list.
  rewrite !run_callbacks_cons. apply IH.
Qed.

Lemma changes_for_others_ignored count now payload (targets : list nat) w :
  (forall i, In i targets -> event_id payload <> VStr (makeId i)) ->
  exec (run_callbacks count (List.map (fun i => Change i (now i) payload) targets)) w
  = w.
Proof.
  revert w. induction targets as [|i targets IH]; intros w Hother; [reflexivity|].
  change (List.map (fun i => Change i (now i) payload) (i :: targets))
    with (Change i (now i) payload
          :: List.map (fun i => Change i (now i) payload) targets).
  rewrite run_callbacks_cons.
  assert (exec (run_callback count (Change i (now i) payload)) w = w) as ->.
  { unfold exec. cbn [run_callback]. destruct (i <? turns count)%nat; [|reflexivity].
    rewrite foreign_change_ignored_eq; [reflexivity|]. apply Hother. left. reflexivity. }
  apply IH. intros k Hk. apply Hother. right. exact Hk.
Qed.

(** X5: every client receives every change of the table, and a change is
    measured once.  When one change with the identity of client [j] is
    delivered to the handlers of all [CLIENT_COUNT] clients, the world
    afterwards is the one the handler of client [j] alone produces, with the
    arrival time of client [j]; when the identity is that of no client
    (another program writes to the table), the world is unchanged. *)
Theorem change_measured_once
    (count : num) (now : nat -> Z) (payload : value) (w : World) :
  (forall j, (j < turns count)%nat -> event_id payload = VStr (makeId j) ->
     exec (run_callbacks count (deliveries count now payload)) w
     = exec (on_change (makeId j) (now j) payload) w)
  /\ ((forall i, (i < turns count)%nat -> event_id payload <> VStr (makeId i)) ->
      exec (run_callbacks count (deliveries count now payload)) w = w).
Proof.
  split.
  - intros j Hj Hid. unfold deliveries.
    assert (seq 0 (turns count)
            = (seq 0 j ++ j :: seq (S j) (turns count - S j))%list) as ->.
    { replace (turns count) with (j + S (turns count - S j))%nat at 1 by lia.
      rewrite seq_app. reflexivity. }
    rewrite map_app, run_callbacks_app.
    rewrite (changes_for_others_ignored count now payload (seq 0 j)).
    2:{ intros i Hi E. apply in_seq in Hi. rewrite Hid in E.
        assert (makeId j = makeId i) as E' by congruence.
        apply makeId_inj in E'. lia. }
    change (List.map (fun i => Change i (now i) payload)
              (j :: seq (S j) (turns count - S j)))
      with (Change j (now j) payload
            :: List.map (fun i => Change i (now i) payload)
                 (seq (S j) (turns count - S j))).
    rewrite run_callbacks_cons.
    rewrite (changes_for_others_ignored count now payload
               (seq (S j) (turns count - S j))).
    2:{ intros i Hi E. apply in_seq in Hi. rewrite Hid in E.
        assert (makeId j = makeId i) as E' by congruence.
        apply makeId_inj in E'. lia. }
    unfold exec. cbn [run_callback].
    destruct (Nat.ltb_spec j (turns count)); [reflexivity | lia].
  - intros Hother. apply changes_for_others_ignored.
    intros i Hi. apply Hother. apply in_seq in Hi. lia.
Qed.

Lemma change_measured_once_witness :
  samples (exec (run_callbacks (Num 3)
                   (deliveries (Num 3) (fun i => 1700000000100 + Z.of_nat i)
                      (change_payload "UPDATE"
                         (periodic_row (makeId 1) 1700000000000) VNull)))
             initial)
  = [Num 101].
Proof.
  destruct (change_measured_once (Num 3) (fun i => 1700000000100 + Z.of_nat i)
              (change_payload "UPDATE" (periodic_row (makeId 1) 1700000000000) VNull)
              initial) as [H _].
  rewrite (H 1%nat).
  - vm_compute. reflexivity.
  - vm_compute. lia.
  - vm_compute. reflexivity.
Defined.

(** ** The accounts of a batch *)

Lemma rejections_S oracle n :
  rejections oracle (S n)
  = (rejections oracle n + (if is_rejected (snd (oracle n)) then 1 else 0))%nat.
Proof.
  unfold rejections. rewrite seq_S, List.filter_app, length_app. simpl.
  destruct (is_rejected (snd (oracle n))); reflexivity.
Qed.

Lemma rejections_le oracle n : (rejections oracle n <= n)%nat.
Proof.
  induction n as [|n IH]; [reflexivity|]. rewrite rejections_S.
  destruct (is_rejected _); lia.
Qed.

(** A turn whose await is quiet: a write that rejects is counted in
    [errors], and a write that resolves is counted in [sent], whatever the
    response holds (the source does not read it). *)
Lemma write_turn_exact count oracle i w :
  forallb quiet (fst (oracle i)) = true ->
  let w' := exec (write_turn count oracle i) w in
  if is_rejected (snd (oracle i))
  then sent w' = sent w /\ errors w' = errors w + 1
  else sent w' = sent w + 1 /\ errors w' = errors w.
Proof.
  intros Hq. cbn zeta. unfold exec. rewrite write_turn_eq. cbn zeta.
  destruct (run_callbacks_keeps_sent_errors count (fst (oracle i)) w Hq)
    as [Hs He].
  destruct (snd (oracle i)); simpl; split; lia.
Qed.

Lemma write_loop_exact count oracle w :
  quiet_awaits oracle (turns count) = true ->
  let w' := exec (write_loop count oracle) w in
  sent w' = sent w + Z.of_nat (turns count - rejections oracle (turns count))
  /\ errors w' = errors w + Z.of_nat (rejections oracle (turns count)).
Proof.
  intros Hq.
  pose (I := fun (j : nat) (w' : World) =>
               sent w' = sent w + Z.of_nat (j - rejections oracle j)
               /\ errors w' = errors w + Z.of_nat (rejections oracle j)).
  apply (for_from_inv I (write_turn count oracle) 0 (turns count) w).
  - apply write_turn_normal.
  - intros j w' Hj [Hs He]. unfold I.
    pose proof (write_turn_exact count oracle j w'
                  (quiet_awaits_turn oracle (turns count) j Hq ltac:(lia))) as H.
    cbn zeta in H.
    pose proof (rejections_le oracle j). rewrite rejections_S.
    destruct (is_rejected (snd (oracle j))); destruct H as [H1 H2];
      rewrite H1, H2, Hs, He; split; lia.
  - unfold I. change (rejections oracle 0) with 0%nat. split; lia.
Qed.

(** X6: the accounts of a batch that runs undisturbed.  The callback of
    the write timer always completes normally.  When only quiet callbacks
    run during its awaits (the report timer and handlers that do not
    throw; no turn of another batch, which the timer may have started
    meanwhile), [errors] has grown afterwards by the number of writes of
    the batch that were rejected and [sent] by the number of the others,
    whether the batch ended with a summary or not. *)
Theorem batch_accounts (count : num) (oracle : nat -> awaited) (w : World) :
  quiet_awaits oracle (turns count) = true ->
  let w' := exec (tick count oracle) w in
  let r := rejections oracle (turns count) in
  fst (tick count oracle w) = Normal tt
  /\ sent w' = sent w + Z.of_nat (turns count - r)
  /\ errors w' = errors w + Z.of_nat r.
Proof.
  intros Hq. cbn zeta. split; [apply tick_normal|].
  destruct (write_loop_exact count oracle w Hq) as [Hs He].
  pose proof (tick_eq count oracle w) as E. cbn zeta in E.
  destruct (summary_due _ _).
  - assert (exec (tick count oracle) w
            = exec printSummary (exec (write_loop count oracle) w)) as ->.
    { unfold exec at 1. rewrite E. reflexivity. }
    pose proof (printSummary_keeps_stats (exec (write_loop count oracle) w)) as H.
    cbn zeta in H. destruct H as (_ & H1 & _ & H2 & _).
    rewrite H1, H2. split; assumption.
  - assert (exec (tick count oracle) w = exec (write_loop count oracle) w) as ->.
    { unfold exec at 1. rewrite E. reflexivity. }
    split; assumption.
Qed.

(** X7: when no write rejects and the batches do not overlap, the summary
    tied to the volume comes after every fifth batch.  With [n > 0]
    clients, if [sent] is [k * n] before a batch whose writes all resolve
    and during whose awaits only quiet callbacks run, it is [(k + 1) * n]
    after it, and the callback of the write timer ends with [printSummary]
    exactly when [k + 1] is a multiple of five. *)
Theorem summary_every_fifth_batch
    (n k : Z) (oracle : nat -> awaited) (w : World) :
  0 < n ->
  quiet_awaits oracle (Z.to_nat n) = true ->
  rejections oracle (Z.to_nat n) = 0%nat ->
  sent w = k * n ->
  let w1 := exec (write_loop (Num n) oracle) w in
  sent w1 = (k + 1) * n
  /\ ((5 | k + 1) -> tick (Num n) oracle w = printSummary w1)
  /\ (~ (5 | k + 1) -> tick (Num n) oracle w = (Normal tt, w1)).
Proof.
  intros Hn Hquiet Hr Hk. cbn zeta.
  destruct (write_loop_exact (Num n) oracle w Hquiet) as [Hs _].
  cbn [turns] in Hs. rewrite Hr, Nat.sub_0_r, Z2Nat.id, Hk in Hs by lia.
  assert (sent (exec (write_loop (Num n) oracle) w) = (k + 1) * n) as Hs' by lia.
  split; [exact Hs'|].
  assert ((n * 5 | (k + 1) * n) <-> (5 | k + 1)) as Hdiv.
  { split; intros [q Hq].
    - exists q. nia.
    - exists q. nia. }
  rewrite tick_eq. cbn zeta. split; intros H5.
  - assert (summary_due (Num n) (exec (write_loop (Num n) oracle) w) = true) as ->.
    { apply summary_due_iff. exists n. rewrite Hs'.
      repeat split; [lia | apply Hdiv, H5]. }
    reflexivity.
  - destruct (summary_due (Num n) (exec (write_loop (Num n) oracle) w)) eqn:E;
      [|reflexivity].
    apply summary_due_iff in E. destruct E as (m & Hm & _ & Hd).
    inversion Hm; subst m. rewrite Hs' in Hd. exfalso. apply H5, Hdiv, Hd.
Qed.

Lemma batch_accounts_witness :
  let w' := exec (tick (Num 3) (fails_at 1)) initial in
  sent w' = 2 /\ errors w' = 1.
Proof.
  destruct (batch_accounts (Num 3) (fails_at 1) initial) as (_ & Hs & He).
  - vm_compute. reflexivity.
  - split; [exact Hs | exact He].
Defined.

Lemma summary_every_fifth_batch_witness :
  let w4 := exec (run_tasks (Num 3)
                    [WriteTimer (always (Resolved VUndefined));
                     WriteTimer (always (Resolved VUndefined));
                     WriteTimer (always (Resolved VUndefined));
                     WriteTimer (always (Resolved VUndefined))]) initial in
  sent (exec (write_loop (Num 3) (always (Resolved VUndefined))) w4) = 15.
Proof.
  cbn zeta.
  apply (summary_every_fifth_batch 3 4 (always (Resolved VUndefined))).
  - lia.
  - vm_compute. reflexivity.
  - vm_compute. reflexivity.
  - vm_compute. reflexivity.
Defined.

(** ** Startup *)

Lemma on_change_keeps_output myId now payload w :
  stdout (exec (on_change myId now payload) w) = stdout w
  /\ stderr (exec (on_change myId now payload) w) = stderr w.
Proof.
  unfold exec. rewrite on_change_eq.
  destruct (_ && _); [|split; reflexivity].
  destruct (JsValue.unprintable _); split; reflexivity.
Qed.

(** While the clients are created only handlers run, and a handler prints
    nothing; one that does not throw counts no error. *)
Lemma startup_callbacks_quiet count i cs w :
  forallb quiet cs = true ->
  let w' := exec (run_callbacks count (List.filter (subscribed i) cs)) w in
  sent w' = sent w /\ errors w' = errors w
  /\ stdout w' = stdout w /\ stderr w' = stderr w.
Proof.
  cbn zeta. revert w. induction cs as [|c cs IH]; intros w Hq; [repeat split|].
  cbn [forallb] in Hq. apply andb_true_iff in Hq as [Hc Hcs].
  cbn [List.filter]. destruct (subscribed i c) eqn:Hsub; [|apply IH, Hcs].
  rewrite run_callbacks_cons.
  destruct (IH (exec (run_callback count c) w) Hcs) as (-> & -> & -> & ->).
  destruct (run_callback_keeps_sent_errors count c w Hc) as [-> ->].
  destruct c as [target now payload| | |]; try discriminate.
  cbn [run_callback]. destruct (target <? turns count)%nat; [|repeat split].
  destruct (on_change_keeps_output (makeId target) now payload w) as [-> ->].
  repeat split.
Qed.

Lemma initial_upsert_exact count oracle i w :
  forallb quiet (fst (oracle i)) = true ->
  let w' := exec (initial_upsert count oracle i) w in
  sent w' = sent w /\ stdout w' = stdout w
  /\ if is_rejected (snd (oracle i))
     then errors w' = errors w + 1
          /\ length (stderr w') = S (length (stderr w))
     else errors w' = errors w /\ stderr w' = stderr w.
Proof.
  intros Hq.
  cbn zeta. unfold exec at 1 2 3 4 5 6. rewrite initial_upsert_eq. cbn zeta.
  destruct (startup_callbacks_quiet count i (fst (oracle i)) w Hq)
    as (Hs & He & Ho & Herr).
  destruct (snd (oracle i)) as [?|e]; cbn [is_rejected snd].
  - repeat split; assumption.
  - cbn [run_section]. unfold console_error, incr_errors. js_unfold.
    cbn [snd sent stdout errors stderr].
    rewrite length_app. simpl. repeat split; try assumption; try lia.
    unfold exec in Herr. rewrite Herr. lia.
Qed.

Lemma new_clients_valid count w :
  valid_length count = true -> new_clients count w = (Normal tt, w).
Proof.
  unfold valid_length, new_clients. destruct count as [|z]; [discriminate|].
  intros ->. reflexivity.
Qed.

Lemma new_clients_invalid count w :
  valid_length count = false ->
  new_clients count w = (Throw (RangeError "Invalid array length"), w).
Proof.
  unfold valid_length, new_clients. destruct count as [|z]; [reflexivity|].
  intros ->. reflexivity.
Qed.

Lemma for_from_ext (body body' : nat -> JS unit) i n w :
  (forall j w, (i <= j < i + n)%nat -> body j w = body' j w) ->
  for_from i n body w = for_from i n body' w.
Proof.
  revert i w. induction n as [|n IH]; intros i w H; [reflexivity|].
  simpl. js_unfold. rewrite (H i w) by lia.
  destruct (body' i w) as [[[]|e] w1]; [|reflexivity].
  apply IH. intros j w' Hj. apply H. lia.
Qed.

(** When [createClient] returns for every client, the loop of [run] is the
    sequence of the initial upserts. *)
Lemma setup_all_created count created oracle w :
  (forall i, (i < turns count)%nat -> created i = Created) ->
  for_loop count (setup_client count created oracle) w
  = for_loop count (initial_upsert count oracle) w.
Proof.
  intros Hc. unfold for_loop. apply for_from_ext.
  intros j w' Hj. rewrite setup_client_eq, Hc by lia. reflexivity.
Qed.

Lemma run_valid_eq count url created oracle w :
  valid_length count = true ->
  (forall i, (i < turns count)%nat -> created i = Created) ->
  run count url created oracle w
  = console_log "All clients created and subscribed."
      (exec (for_loop count (initial_upsert count oracle))
         (exec (console_log ("Starting benchmark: " ++ JsNum.to_string count
                             ++ " clients => " ++ url)) w)).
Proof.
  intros Hv Hc. unfold run.
  set (banner := ("Starting benchmark: " ++ _)%string).
  set (w1 := exec (console_log banner) w).
  rewrite (bind_normal (console_log banner) _ w tt eq_refl). fold w1.
  rewrite (bind_normal (new_clients count) _ w1 tt);
    [|rewrite (new_clients_valid _ _ Hv); reflexivity].
  replace (exec (new_clients count) w1) with w1
    by (unfold exec; rewrite (new_clients_valid _ _ Hv); reflexivity).
  destruct (for_from_closed (fun _ => True) (initial_upsert count oracle) 0
              (turns count) w1) as [Hn _];
    auto using initial_upsert_normal.
  pose proof (setup_all_created count created oracle w1 Hc) as E.
  rewrite (bind_normal _ _ w1 tt); [|rewrite E; exact Hn].
  unfold exec at 1. rewrite E. reflexivity.
Qed.

(** X8: the accounts of startup.  With a client count that is a valid array
    length, when [createClient] returns a client each time and no handler
    throws during the awaits, [run] completes normally, prints its two
    lines and nothing else on the standard output, leaves [sent] as it
    was, and adds to [errors], and to the lines of the error output, the
    number of initial upserts that were rejected: a rejected initial write
    is reported and counted, and the next client is created all the
    same. *)
Theorem startup_accounts
    (count : num) (url : string) (created : nat -> creation)
    (oracle : nat -> awaited) (w : World) :
  valid_length count = true ->
  (forall i, (i < turns count)%nat -> created i = Created) ->
  quiet_awaits oracle (turns count) = true ->
  let w' := exec (run count url created oracle) w in
  let r := rejections oracle (turns count) in
  fst (run count url created oracle w) = Normal tt
  /\ sent w' = sent w
  /\ errors w' = errors w + Z.of_nat r
  /\ length (stderr w') = (length (stderr w) + r)%nat
  /\ stdout w' =
       (stdout w ++ [("Starting benchmark: " ++ JsNum.to_string count
                      ++ " clients => " ++ url)%string;
                     "All clients created and subscribed."])%list.
Proof.
  intros Hv Hc Hq. cbn zeta.
  pose proof (run_valid_eq count url created oracle w Hv Hc) as E.
  set (banner := ("Starting benchmark: " ++ _)%string) in *.
  set (w1 := exec (console_log banner) w) in *.
  pose (I := fun (j : nat) (w' : World) =>
               sent w' = sent w1 /\ stdout w' = stdout w1
               /\ errors w' = errors w1 + Z.of_nat (rejections oracle j)
               /\ length (stderr w')
                  = (length (stderr w1) + rejections oracle j)%nat).
  destruct (for_from_inv I (initial_upsert count oracle) 0 (turns count) w1)
    as [Hn HI].
  { apply initial_upsert_normal. }
  { intros j w' Hj (Hs & Ho & He & Herr). unfold I.
    pose proof (initial_upsert_exact count oracle j w'
                  (quiet_awaits_turn oracle (turns count) j Hq ltac:(lia))) as H.
    cbn zeta in H.
    destruct H as (H1 & H2 & H3). rewrite rejections_S.
    destruct (is_rejected (snd (oracle j))); destruct H3 as [H3 H4];
      rewrite H1, H2, H3, ?H4, Hs, Ho, He, ?Herr; repeat split; lia. }
  { unfold I. change (rejections oracle 0) with 0%nat. repeat split; lia. }
  destruct HI as (Hs & Ho & He & Herr). cbn [Nat.add] in *.
  unfold for_loop in E.
  set (w2 := exec (for_from 0 (turns count) (initial_upsert count oracle)) w1) in *.
  assert (sent w1 = sent w /\ errors w1 = errors w /\ stderr w1 = stderr w
          /\ stdout w1 = (stdout w ++ [banner])%list) as (Hs1 & He1 & Herr1 & Ho1).
  { repeat split. }
  unfold exec. rewrite E. unfold console_log, modify.
  cbn [fst snd sent errors stderr stdout].
  rewrite Hs, Ho, He, Herr, Hs1, He1, Herr1, Ho1, <- app_assoc.
  repeat split.
Qed.

Lemma startup_accounts_witness :
  errors (exec (run (Num 3) "http://192.168.0.50:8000" (fun _ => Created)
                  (fails_at 1)) initial) = 1.
Proof.
  destruct (startup_accounts (Num 3) "http://192.168.0.50:8000"
              (fun _ => Created) (fails_at 1) initial)
    as (_ & _ & H & _).
  - reflexivity.
  - intros i _. reflexivity.
  - vm_compute. reflexivity.
  - rewrite H. vm_compute. reflexivity.
Defined.

(** ** Leaving early *)

Lemma run_invalid count url created oracle w :
  valid_length count = false ->
  run count url created oracle w
  = (Throw (RangeError "Invalid array length"),
     exec (console_log ("Starting benchmark: " ++ JsNum.to_string count
                        ++ " clients => " ++ url)) w).
Proof.
  intros Hv. unfold run.
  set (banner := ("Starting benchmark: " ++ _)%string).
  rewrite (bind_normal (console_log banner) _ w tt eq_refl).
  rewrite (bind_throw (new_clients count) _ _ (RangeError "Invalid array length"));
    [|rewrite (new_clients_invalid _ _ Hv); reflexivity].
  unfold exec at 1. rewrite (new_clients_invalid _ _ Hv). reflexivity.
Qed.

(** [createClient] refuses its arguments: [run] throws at the first
    client, after the banner. *)
Lemma run_not_created count url created oracle e w :
  valid_length count = true ->
  (0 < turns count)%nat ->
  created 0%nat = CreationFailed e ->
  run count url created oracle w
  = (Throw e,
     exec (console_log ("Starting benchmark: " ++ JsNum.to_string count
                        ++ " clients => " ++ url)) w).
Proof.
  intros Hv Hpos Hc. unfold run.
  set (banner := ("Starting benchmark: " ++ _)%string).
  set (w1 := exec (console_log banner) w).
  rewrite (bind_normal (console_log banner) _ w tt eq_refl). fold w1.
  rewrite (bind_normal (new_clients count) _ w1 tt);
    [|rewrite (new_clients_valid _ _ Hv); reflexivity].
  replace (exec (new_clients count) w1) with w1
    by (unfold exec; rewrite (new_clients_valid _ _ Hv); reflexivity).
  assert (for_loop count (setup_client count created oracle) w1 = (Throw e, w1))
    as E.
  { unfold for_loop. destruct (turns count) as [|n]; [lia|].
    simpl. js_unfold. rewrite setup_client_eq, Hc. reflexivity. }
  rewrite (bind_throw _ _ w1 e); [|rewrite E; reflexivity].
  unfold exec at 1. rewrite E. reflexivity.
Qed.

(** X9: the program does its work exactly when it has a URL, a key, a
    client count that is a valid array length, and [createClient] accepts
    the URL and the key.  When an argument is missing or empty, or the
    count is [NaN], negative or not below [2^32], or [createClient] throws
    for the first client, the program leaves [stats] untouched, writes one
    line on the error output, and the outcomes of the writes and the
    schedule of the callbacks play no part: no row is written and no timer
    is set.  When [createClient] returns a client each time, the program is
    [run] followed by the tasks of the event loop. *)
Theorem work_needs_valid_arguments
    (url key arg : option string) (created : nat -> creation)
    (startup : nat -> awaited) (ts : list task) (w : World) :
  (falsy_arg url || falsy_arg key = true
   \/ valid_length (CLIENT_COUNT arg) = false ->
   let w' := bench url key arg created startup ts w in
   sent w' = sent w /\ received w' = received w /\ errors w' = errors w
   /\ samples w' = samples w
   /\ length (stderr w') = S (length (stderr w))
   /\ forall created' startup' ts',
        bench url key arg created' startup' ts' w = w')
  /\ (forall e,
        falsy_arg url || falsy_arg key = false ->
        valid_length (CLIENT_COUNT arg) = true ->
        (0 < turns (CLIENT_COUNT arg))%nat ->
        created 0%nat = CreationFailed e ->
        let w' := bench url key arg created startup ts w in
        sent w' = sent w /\ received w' = received w /\ errors w' = errors w
        /\ samples w' = samples w
        /\ stderr w' = (stderr w ++ [exn_message e])%list
        /\ length (stdout w') = S (length (stdout w))
        /\ forall startup' ts', bench url key arg created startup' ts' w = w')
  /\ (falsy_arg url || falsy_arg key = false ->
      valid_length (CLIENT_COUNT arg) = true ->
      (forall i, (i < turns (CLIENT_COUNT arg))%nat -> created i = Created) ->
      bench url key arg created startup ts w
      = exec (run_tasks (CLIENT_COUNT arg) ts)
          (exec (run (CLIENT_COUNT arg) (default "" url) created startup) w)).
Proof.
  split; [|split].
  - intros H. cbn zeta. unfold bench.
    destruct (falsy_arg url || falsy_arg key) eqn:Hargs.
    + unfold console_error. js_unfold. cbn [snd sent received errors stderr].
      rewrite length_app. simpl. repeat split. lia.
    + destruct H as [H|Hv]; [discriminate|].
      unfold main. rewrite (run_invalid _ _ _ _ _ Hv).
      unfold console_error, console_log. js_unfold.
      cbn [snd sent received errors stderr]. rewrite length_app. simpl.
      repeat split; try lia.
      intros created' startup' ts'. rewrite (run_invalid _ _ _ _ _ Hv).
      reflexivity.
  - intros e Hargs Hv Hpos Hc. cbn zeta. unfold bench. rewrite Hargs.
    unfold main. rewrite (run_not_created _ _ _ _ e _ Hv Hpos Hc).
    unfold console_error, console_log. js_unfold.
    cbn [snd sent received errors stderr stdout]. rewrite length_app. simpl.
    repeat split; try lia.
    intros startup' ts'. rewrite (run_not_created _ _ _ _ e _ Hv Hpos Hc).
    reflexivity.
  - intros Hargs Hv Hc. unfold bench. rewrite Hargs. unfold main.
    pose proof (run_valid_eq _ (default "" url) created startup w Hv Hc) as E.
    change (exec (run (CLIENT_COUNT arg) (default "" url) created startup) w)
      with (snd (run (CLIENT_COUNT arg) (default "" url) created startup w)).
    destruct (run (CLIENT_COUNT arg) (default "" url) created startup w)
      as [[[]|e] w1]; [reflexivity|].
    unfold console_log, modify in E. discriminate E.
Qed.

Lemma work_needs_valid_arguments_witness :
  let w := bench (Some "notaurl") (Some "your_anon_key") (Some "3")
             (fun _ => CreationFailed invalid_url)
             (always (Resolved VUndefined))
             [WriteTimer (always (Resolved VUndefined))] initial in
  sent w = 0 /\ errors w = 0
  /\ stderr w
     = ["Error: Invalid supabaseUrl: Must be a valid HTTP or HTTPS URL."].
Proof.
  cbn zeta.
  destruct (work_needs_valid_arguments (Some "notaurl")
              (Some "your_anon_key") (Some "3")
              (fun _ => CreationFailed invalid_url)
              (always (Resolved VUndefined))
              [WriteTimer (always (Resolved VUndefined))] initial)
    as (_ & H & _).
  destruct (H invalid_url) as (Hs & _ & He & _ & Herr & _).
  - vm_compute. reflexivity.
  - vm_compute. reflexivity.
  - vm_compute. lia.
  - reflexivity.
  - rewrite Hs, He, Herr. repeat split.
Defined.

(** ** Every run is a sequence of sections *)

Section Closure.

(** A property of worlds that every synchronous section preserves. *)
Variable P : World -> Prop.
Hypothesis P_section : forall s w, P w -> P (exec (run_section s) w).

Variable count : num.

Lemma closed_batch_end w : P w -> P (exec (batch_end count) w).
Proof.
  intros Hw. unfold exec. rewrite batch_end_eq.
  destruct (summary_due _ _); [|exact Hw].
  exact (P_section SSummary w Hw).
Qed.

Lemma closed_run_callback c w : P w -> P (exec (run_callback count c) w).
Proof.
  intros Hw. destruct c as [target now payload| |[r|e]|]; simpl.
  - destruct (target <? turns count)%nat; [|exact Hw].
    exact (P_section (SChange (makeId target) now payload) w Hw).
  - exact (P_section SSummary w Hw).
  - exact (P_section SWriteDone w Hw).
  - exact (P_section SWriteFailed w Hw).
  - apply closed_batch_end, Hw.
Qed.

Lemma closed_run_callbacks cs w : P w -> P (exec (run_callbacks count cs) w).
Proof.
  revert w. induction cs as [|c cs IH]; intros w Hw; [exact Hw|].
  rewrite run_callbacks_cons. apply IH, closed_run_callback, Hw.
Qed.

Lemma closed_write_turn oracle i w : P w -> P (exec (write_turn count oracle i) w).
Proof.
  intros Hw. unfold exec. rewrite write_turn_eq. cbn zeta.
  pose proof (closed_run_callbacks (fst (oracle i)) w Hw) as H1.
  destruct (snd (oracle i)).
  - exact (P_section SWriteDone _ H1).
  - exact (P_section SWriteFailed _ H1).
Qed.

Lemma closed_tick oracle w : P w -> P (exec (tick count oracle) w).
Proof.
  intros Hw. unfold exec. rewrite tick_eq. cbn zeta.
  assert (P (exec (write_loop count oracle) w)) as H1.
  { apply (for_from_closed P); auto using write_turn_normal, closed_write_turn. }
  destruct (summary_due _ _); [|exact H1].
  exact (P_section SSummary _ H1).
Qed.

Lemma closed_run_tasks ts w : P w -> P (exec (run_tasks count ts) w).
Proof.
  revert w. induction ts as [|t ts IH]; intros w Hw; [exact Hw|].
  unfold exec. simpl. rewrite (bind_normal _ _ _ tt (run_task_normal count t w)).
  apply IH. destruct t; [apply closed_run_callback | apply closed_tick]; exact Hw.
Qed.

Lemma closed_initial_upsert oracle i w :
  P w -> P (exec (initial_upsert count oracle i) w).
Proof.
  intros Hw. unfold exec. rewrite initial_upsert_eq. cbn zeta.
  pose proof (closed_run_callbacks
                (List.filter (subscribed i) (fst (oracle i))) w Hw) as H1.
  destruct (snd (oracle i)) as [?|e]; [exact H1|].
  exact (P_section (SInitFailed e) _ H1).
Qed.

Lemma closed_setup_client created oracle i w :
  P w -> P (exec (setup_client count created oracle i) w).
Proof.
  intros Hw. unfold exec. rewrite setup_client_eq.
  destruct (created i); [|exact Hw].
  apply closed_initial_upsert, Hw.
Qed.

Lemma closed_run url created oracle w :
  P w -> P (exec (run count url created oracle) w).
Proof.
  intros Hw.
  set (banner := ("Starting benchmark: " ++ JsNum.to_string count
                  ++ " clients => " ++ url)%string).
  pose proof (P_section (SLog banner) w Hw) as H1. cbn [run_section] in H1.
  destruct (valid_length count) eqn:Hv.
  - unfold run. fold banner.
    unfold exec at 1.
    rewrite (bind_normal (console_log banner) _ w tt eq_refl).
    set (w1 := exec (console_log banner) w) in *.
    rewrite (bind_normal (new_clients count) _ w1 tt);
      [|rewrite (new_clients_valid _ _ Hv); reflexivity].
    replace (exec (new_clients count) w1) with w1
      by (unfold exec; rewrite (new_clients_valid _ _ Hv); reflexivity).
    pose proof (for_from_preserved P (setup_client count created oracle) 0
                  (turns count) w1
                  (fun j w' => closed_setup_client created oracle j w') H1)
      as Hr.
    unfold exec in Hr. js_unfold. unfold for_loop.
    destruct (for_from 0 (turns count) (setup_client count created oracle) w1)
      as [[[]|e] w2]; cbn [snd] in *; [|exact Hr].
    exact (P_section (SLog "All clients created and subscribed.") _ Hr).
  - unfold exec. rewrite (run_invalid _ _ _ _ _ Hv). exact H1.
Qed.

Lemma closed_main url created startup ts w :
  P w -> P (main count url created startup ts w).
Proof.
  intros Hw. unfold main.
  pose proof (closed_run url created startup w Hw) as H1. unfold exec in H1.
  destruct (run count url created startup w) as [[[]|e] w1]; cbn [snd] in H1.
  - apply closed_run_tasks, H1.
  - exact (P_section (SError (exn_message e)) _ H1).
Qed.

End Closure.

Lemma closed_bench (P : World -> Prop) url key arg created startup ts w :
  (forall s w, P w -> P (exec (run_section s) w)) ->
  P w -> P (bench url key arg created startup ts w).
Proof.
  intros HP Hw. unfold bench. destruct (_ || _).
  - exact (HP (SError usage) w Hw).
  - apply closed_main; assumption.
Qed.

(** ** What the program never undoes *)

Lemma grows_refl w : grows w w.
Proof. constructor; reflexivity. Qed.

Lemma grows_trans w1 w2 w3 : grows w1 w2 -> grows w2 w3 -> grows w1 w3.
Proof.
  intros [] []. constructor; try lia; try congruence; try (etrans; eassumption).
Qed.

Lemma section_grows s w : grows w (exec (run_section s) w).
Proof.
  destruct s as [myId now payload| | |e| |line|line]; cbn [run_section].
  - destruct (handler_effect myId now payload w)
      as (Hs & Ho & Herr & Hl & He & [[Hr Hsm]|(_ & Hr & x & Hsm)]);
      constructor; rewrite ?Hs, ?He, ?Ho, ?Herr, ?Hl, ?Hr, ?Hsm;
      try reflexivity; try (destruct (handler_throws myId payload); lia).
    apply prefix_app_r. reflexivity.
  - constructor; simpl; try reflexivity; lia.
  - constructor; simpl; try reflexivity; lia.
  - constructor; simpl; try reflexivity; try lia. apply prefix_app_r. reflexivity.
  - pose proof (printSummary_keeps_stats w) as H. cbn zeta in H.
    destruct H as (_ & Hs & Hr & He & Hl & Hsm & Herr).
    destruct (printSummary_stdout w) as [line Ho].
    constructor; rewrite ?Hs, ?Hr, ?He, ?Hl, ?Hsm, ?Herr, ?Ho;
      try reflexivity. apply prefix_app_r. reflexivity.
  - constructor; simpl; try reflexivity. apply prefix_app_r. reflexivity.
  - constructor; simpl; try reflexivity. apply prefix_app_r. reflexivity.
Qed.

(** X10: nothing is undone.  From any world, whatever tasks the event loop
    runs, and over a whole run of the program whatever its arguments:
    [sent], [received] and [errors] do not decrease, [stats.latencies] stays
    the same array, the samples recorded before are still there, in place,
    at the front of the samples, and the lines printed before are still the
    first lines of the output. *)
Theorem nothing_is_undone :
  (forall count ts w, grows w (exec (run_tasks count ts) w))
  /\ (forall url key arg created startup ts w,
        grows w (bench url key arg created startup ts w)).
Proof.
  assert (forall w0 s w, grows w0 w -> grows w0 (exec (run_section s) w)) as Hstep.
  { intros w0 s w H. exact (grows_trans _ _ _ H (section_grows s w)). }
  split.
  - intros count ts w.
    apply (closed_run_tasks (grows w) (Hstep w)), grows_refl.
  - intros url key arg created startup ts w.
    apply (closed_bench (grows w)); [apply Hstep | apply grows_refl].
Qed.

(** ** A sample that is not a number *)

Lemma add_from_NaN l : fold_left JsNum.add l NaN = NaN.
Proof. induction l as [|x l IH]; [reflexivity | exact IH]. Qed.

Lemma min_from_NaN l : fold_left math_min l NaN = NaN.
Proof. induction l as [|x l IH]; [reflexivity | exact IH]. Qed.

Lemma max_from_NaN l : fold_left math_max l NaN = NaN.
Proof. induction l as [|x l IH]; [reflexivity | exact IH]. Qed.

Lemma add_with_NaN l a : In NaN l -> fold_left JsNum.add l a = NaN.
Proof.
  revert a. induction l as [|x l IH]; intros a H; [destruct H|].
  destruct H as [Hx|Hl]; simpl.
  - subst x. destruct a; apply add_from_NaN.
  - apply IH, Hl.
Qed.

Lemma min_with_NaN l a : In NaN (a :: l) -> fold_left math_min l a = NaN.
Proof.
  revert a. induction l as [|x l IH]; intros a [Ha|Hl].
  - subst a. reflexivity.
  - destruct Hl.
  - subst a. apply min_from_NaN.
  - simpl. apply IH. destruct Hl as [->|Hl]; [left|right; exact Hl].
    destruct a; reflexivity.
Qed.

Lemma max_with_NaN l a : In NaN (a :: l) -> fold_left math_max l a = NaN.
Proof.
  revert a. induction l as [|x l IH]; intros a [Ha|Hl].
  - subst a. reflexivity.
  - destruct Hl.
  - subst a. apply max_from_NaN.
  - simpl. apply IH. destruct Hl as [->|Hl]; [left|right; exact Hl].
    destruct a; reflexivity.
Qed.

Lemma percentile_of_store arr p w :
  fst (pct arr p w) = Normal (percentile (deref w arr) p).
Proof. rewrite pct_eq. unfold percentile. destruct (deref w arr); reflexivity. Qed.

Lemma derive_result w : fst (derive w) = Normal (derived_of (samples w)).
Proof.
  rewrite derive_eq. cbn zeta. cbn [fst].
  rewrite percentile_of_store. fold (samples w).
  unfold derived_of. destruct (samples w); reflexivity.
Qed.

(** X11: a sample that is not a number stays and spoils every summary.
    Once [NaN] is among the samples (a change whose timestamp did not parse,
    line 43), it is among them after any tasks the event loop runs, and in
    every later summary the average is ["NaN"] and the minimum and the
    maximum are [NaN]. *)
Theorem nan_sample_spoils_summaries (w : World) (count : num) (ts : list task) :
  In NaN (samples w) ->
  let w' := exec (run_tasks count ts) w in
  In NaN (samples w')
  /\ exists d, fst (derive w') = Normal d
       /\ d_avg d = VStr "NaN" /\ d_min d = VNum NaN /\ d_max d = VNum NaN.
Proof.
  intros Hnan. cbn zeta.
  assert (In NaN (samples (exec (run_tasks count ts) w))) as H.
  { apply (closed_run_tasks (fun w' => In NaN (samples w'))); [|exact Hnan].
    intros s w0 H0. destruct (section_grows s w0) as [_ _ _ _ [k Hk] _ _].
    rewrite Hk. apply in_or_app. left. exact H0. }
  split; [exact H|].
  exists (derived_of (samples (exec (run_tasks count ts) w))).
  split; [apply derive_result|].
  destruct (samples (exec (run_tasks count ts) w)) as [|x rest]; [destruct H|].
  unfold derived_of, average. cbn [d_avg d_min d_max].
  rewrite (add_with_NaN (x :: rest) (Num 0) H).
  rewrite (min_with_NaN rest x H), (max_with_NaN rest x H). repeat split.
Qed.

Lemma nan_sample_spoils_summaries_witness :
  let w := exec (on_change "client-0" 1700000000123
                   (change_of "client-0" (VStr "abc"))) initial in
  let w' := exec (run_tasks (Num 1)
                    [Callback (Change 0 1700000000200
                                 (change_of "client-0" (VStr "1700000000100")))]) w in
  In NaN (samples w').
Proof.
  cbn zeta. apply nan_sample_spoils_summaries. vm_compute. left. reflexivity.
Defined.

(** ** The summary is a view of [stats] *)

Lemma derive_keeps w :
  let w' := exec derive w in
  sent w' = sent w /\ received w' = received w /\ errors w' = errors w
  /\ samples w' = samples w /\ stdout w' = stdout w /\ stderr w' = stderr w.
Proof.
  cbn zeta.
  assert (exec derive w = exec (pct (latencies w) 95) w) as ->.
  { unfold exec at 1. rewrite derive_eq. reflexivity. }
  destruct (pct_keeps_stats (latencies w) 95 w) as (Hs & Hr & He & Hl & Ho & Herr).
  repeat split; try assumption.
  unfold samples, deref. rewrite Hl.
  rewrite !lookup_total_alt, (pct_keeps_lookup (latencies w) 95 w). reflexivity.
Qed.

Lemma printSummary_report w :
  printSummary w =
    (Normal tt,
     mkWorld (sent w) (received w) (latencies (exec derive w)) (errors w)
       (heap (exec derive w)) (stdout w ++ [report w])%list (stderr w)).
Proof.
  rewrite printSummary_eq. cbn zeta. rewrite derive_result.
  destruct (derive_keeps w) as (Hs & Hr & He & Hsm & Ho & Herr).
  unfold report, summary_line. rewrite Hs, Hr, He, Hsm, Ho, Herr. reflexivity.
Qed.

(** X12: a summary reads [stats] and changes nothing of it.  [printSummary]
    completes normally and adds exactly one line to the output; the
    counters, the samples, the reference [stats.latencies] and the error
    output are as before, so that a second summary right after the first
    prints the same line again. *)
Theorem summary_reads_stats (w : World) :
  let w1 := exec printSummary w in
  fst (printSummary w) = Normal tt
  /\ (exists line,
        stdout w1 = (stdout w ++ [line])%list
        /\ stdout (exec printSummary w1) = (stdout w ++ [line; line])%list)
  /\ sent w1 = sent w /\ received w1 = received w /\ errors w1 = errors w
  /\ latencies w1 = latencies w
  /\ samples w1 = samples w /\ stderr w1 = stderr w.
Proof.
  cbn zeta.
  pose proof (printSummary_keeps_stats w) as H. cbn zeta in H.
  destruct H as (Hn & Hs & Hr & He & Hl & Hsm & Herr).
  assert (stdout (exec printSummary w) = (stdout w ++ [report w])%list) as Ho.
  { unfold exec. rewrite printSummary_report. reflexivity. }
  split; [exact Hn|]. split; [|repeat split; assumption].
  exists (report w). split; [exact Ho|].
  unfold exec at 1. rewrite printSummary_report. cbn [snd stdout].
  rewrite Ho, <- app_assoc. unfold report, summary_line.
  rewrite Hs, Hr, He, Hsm. reflexivity.
Qed.

(** ** Minimum, p95 and maximum *)

Lemma fold_min_spec rest x :
  Forall (fun y => y <> NaN) (x :: rest) ->
  exists a, fold_left math_min rest x = Num a
            /\ In (Num a) (x :: rest)
            /\ forall v, In (Num v) (x :: rest) -> a <= v.
Proof.
  revert x. induction rest as [|y rest IH]; intros x Hall.
  - inversion Hall as [|? ? Hx _]; subst. destruct x as [|vx]; [contradiction|].
    exists vx. repeat split; [left; reflexivity|].
    intros v [Hv|[]]. inversion Hv. lia.
  - inversion Hall as [|? ? Hx Hall']; subst.
    inversion Hall' as [|? ? Hy Hrest]; subst.
    destruct x as [|vx]; [contradiction|]. destruct y as [|vy]; [contradiction|].
    destruct (IH (Num (Z.min vx vy))) as (a & Ha & Hin & Hlow).
    { constructor; [discriminate | exact Hrest]. }
    exists a. split; [exact Ha|]. split.
    + destruct Hin as [Hin|Hin].
      * inversion Hin as [Hm]. destruct (Z.min_spec vx vy) as [[_ E]|[_ E]];
          rewrite E; [left | right; left]; reflexivity.
      * right. right. exact Hin.
    + assert (a <= Z.min vx vy) as Hm by (apply Hlow; left; reflexivity).
      intros v [Hv|[Hv|Hv]].
      * inversion Hv. lia.
      * inversion Hv. lia.
      * apply Hlow. right. exact Hv.
Qed.

Lemma fold_max_spec rest x :
  Forall (fun y => y <> NaN) (x :: rest) ->
  exists c, fold_left math_max rest x = Num c
            /\ In (Num c) (x :: rest)
            /\ forall v, In (Num v) (x :: rest) -> v <= c.
Proof.
  revert x. induction rest as [|y rest IH]; intros x Hall.
  - inversion Hall as [|? ? Hx _]; subst. destruct x as [|vx]; [contradiction|].
    exists vx. repeat split; [left; reflexivity|].
    intros v [Hv|[]]. inversion Hv. lia.
  - inversion Hall as [|? ? Hx Hall']; subst.
    inversion Hall' as [|? ? Hy Hrest]; subst.
    destruct x as [|vx]; [contradiction|]. destruct y as [|vy]; [contradiction|].
    destruct (IH (Num (Z.max vx vy))) as (c & Hc & Hin & Hup).
    { constructor; [discriminate | exact Hrest]. }
    exists c. split; [exact Hc|]. split.
    + destruct Hin as [Hin|Hin].
      * inversion Hin as [Hm]. destruct (Z.max_spec vx vy) as [[_ E]|[_ E]];
          rewrite E; [right; left | left]; reflexivity.
      * right. right. exact Hin.
    + assert (Z.max vx vy <= c) as Hm by (apply Hup; left; reflexivity).
      intros v [Hv|[Hv|Hv]].
      * inversion Hv. lia.
      * inversion Hv. lia.
      * apply Hup. right. exact Hv.
Qed.

Lemma percentile_95_member l :
  l <> [] -> Z.of_nat (length l) < 2 ^ 32 ->
  exists x, percentile l 95 = VNum x /\ In x l.
Proof.
  intros Hl Hn. unfold percentile. destruct l as [|y l'] eqn:El; [contradiction|].
  rewrite <- El in *. cbn zeta.
  assert (0 < Z.of_nat (length l)) as Hpos by (rewrite El; simpl; lia).
  rewrite sort_by_length, pct_index_95 by lia.
  set (n := Z.of_nat (length l)) in *.
  set (i := Z.min (95 * n / 100) (n - 1)).
  assert (0 <= i < n) as Hi.
  { unfold i. pose proof (Z.div_pos (95 * n) 100). lia. }
  destruct (lookup_lt_is_Some_2 (sort_by js_asc l) (Z.to_nat i)) as [x Hx].
  { rewrite sort_by_length. lia. }
  exists x. split.
  - unfold element. destruct (Z.ltb_spec i 0); [lia|]. rewrite Hx. reflexivity.
  - apply (Permutation_in x (sort_by_perm js_asc l)).
    apply list_elem_of_In, list_elem_of_lookup. eauto.
Qed.

(** X13: the summary is ordered.  When there is at least one sample and no
    sample is [NaN], the minimum, the p95 and the maximum that
    [printSummary] derives are three of the samples, and
    minimum <= p95 <= maximum. *)
Theorem summary_is_ordered (w : World) :
  samples w <> [] ->
  Forall (fun x => x <> NaN) (samples w) ->
  Z.of_nat (length (samples w)) < 2 ^ 32 ->
  exists d a b c,
    fst (derive w) = Normal d
    /\ d_min d = VNum (Num a) /\ d_p95 d = VNum (Num b) /\ d_max d = VNum (Num c)
    /\ a <= b <= c
    /\ In (Num a) (samples w) /\ In (Num b) (samples w) /\ In (Num c) (samples w).
Proof.
  intros Hne Hall Hlen.
  destruct (percentile_95_member (samples w) Hne Hlen) as (x & Hp & Hx).
  assert (x <> NaN) as Hxn.
  { rewrite Forall_forall in Hall. apply Hall, list_elem_of_In, Hx. }
  destruct x as [|b]; [contradiction|].
  destruct (samples w) as [|y rest] eqn:El; [contradiction|].
  destruct (fold_min_spec rest y Hall) as (a & Ha & Hina & Hlow).
  destruct (fold_max_spec rest y Hall) as (c & Hc & Hinc & Hup).
  exists (derived_of (y :: rest)), a, b, c.
  split; [rewrite derive_result, El; reflexivity|].
  unfold derived_of. cbn [d_min d_p95 d_max]. rewrite Ha, Hc, Hp.
  repeat split; try assumption.
  - apply Hlow, Hx.
  - apply Hup, Hx.
Qed.

Lemma summary_is_ordered_witness :
  exists d a b c,
    fst (derive ten_samples_unordered) = Normal d
    /\ d_min d = VNum (Num a) /\ d_p95 d = VNum (Num b) /\ d_max d = VNum (Num c)
    /\ a <= b <= c.
Proof.
  destruct (summary_is_ordered ten_samples_unordered)
    as (d & a & b & c & H1 & H2 & H3 & H4 & H5 & _).
  - vm_compute. discriminate.
  - vm_compute. repeat constructor; discriminate.
  - vm_compute. reflexivity.
  - exists d, a, b, c. repeat split; try assumption; lia.
Defined.

(** ** The ends of the range of [pct] *)

Lemma pct_index_0 (len : nat) : pct_index 0 len = 0.
Proof. reflexivity. Qed.

Lemma div_100_100 : Binary64.div_by 100 100 = Binary64.Dy (2 ^ 52) (-52).
Proof. vm_compute. reflexivity. Qed.

(** [(100/100) * n] is [n]: the product with 1 is exact. *)
Lemma pct_index_100 (len : nat) :
  (0 < len)%nat -> Z.of_nat len < 2 ^ 32 -> pct_index 100 len = Z.of_nat len.
Proof.
  intros Hpos Hlt. unfold pct_index. rewrite div_100_100.
  set (n := Z.of_nat len) in *.
  unfold Binary64.mul_int, Binary64.round. cbn [Binary64.mant Binary64.expo].
  set (a := 2 ^ 52 * n).
  assert (0 < a) as Ha0 by (unfold a; lia).
  rewrite (Z.abs_eq a), (Z.sgn_pos a) by lia.
  destruct (Z.eq_dec n 1) as [E|Hn2].
  { unfold a. rewrite E. vm_compute. reflexivity. }
  assert (2 ^ 53 <= a) as Ha.
  { unfold a. change (2 ^ 53) with (2 ^ 52 * 2). apply Z.mul_le_mono_nonneg_l; lia. }
  destruct (round_nat_cases a Ha) as (Hk & _ & ->).
  assert (Z.log2 a = 52 + Z.log2 n) as Hlog.
  { unfold a. rewrite Z.mul_comm. apply Z.log2_mul_pow2; lia. }
  set (k := Z.log2 a - 52) in *.
  assert (k = Z.log2 n) as Hkn by (unfold k; lia).
  assert (k < 32) as Hk32.
  { rewrite Hkn. apply Z.log2_lt_pow2; lia. }
  assert (a = (2 ^ (52 - k) * n) * 2 ^ k) as Hfact.
  { unfold a. replace (2 ^ 52) with (2 ^ (52 - k) * 2 ^ k); [ring|].
    rewrite <- Z.pow_add_r by lia. f_equal. lia. }
  assert (0 < 2 ^ k) as HK by (apply Z.pow_pos_nonneg; lia).
  assert (a mod 2 ^ k = 0) as ->.
  { rewrite Hfact. apply Z.mod_mul. lia. }
  assert (a / 2 ^ k = 2 ^ (52 - k) * n) as ->.
  { rewrite Hfact. apply Z.div_mul. lia. }
  destruct (Z.ltb_spec (2 * 0) (2 ^ k)); [|lia].
  unfold Binary64.floor. cbn [Binary64.mant Binary64.expo].
  destruct (Z.leb_spec 0 (-52 + k)); [lia|].
  rewrite Z.mul_1_l, Z.shiftr_div_pow2 by lia.
  replace (- (-52 + k)) with (52 - k) by lia.
  rewrite Z.mul_comm. apply Z.div_mul.
  apply Z.pow_nonzero; lia.
Qed.

Lemma sorted_lookup_le (s : list num) i j x y :
  Sorted num_le s -> (i < j)%nat ->
  s !! i = Some x -> s !! j = Some y -> num_le x y.
Proof.
  intros Hs. apply Sorted_StronglySorted in Hs; [|exact num_le_trans].
  revert i j. induction Hs as [|h t Ht IH Hall]; intros i j Hij Hi Hj.
  - discriminate.
  - destruct j as [|j]; [lia|]. destruct i as [|i].
    + inversion Hi; subst. rewrite Forall_forall in Hall.
      apply Hall, list_elem_of_lookup. eauto.
    + apply (IH i j); [lia | exact Hi | exact Hj].
Qed.

Lemma sorted_ends l x rest :
  l = x :: rest -> Forall (fun y => y <> NaN) l ->
  sort_by js_asc l !! 0%nat = Some (fold_left math_min rest x)
  /\ sort_by js_asc l !! (length l - 1)%nat = Some (fold_left math_max rest x).
Proof.
  intros El Hall.
  pose proof (sort_by_sorted l Hall) as Hs.
  pose proof (sort_by_perm js_asc l) as Hp.
  pose proof (sort_by_length js_asc l) as Hlen.
  set (s := sort_by js_asc l) in *.
  assert (0 < length l)%nat as Hpos by (rewrite El; simpl; lia).
  assert (forall i v, s !! i = Some v -> exists z, v = Num z /\ In (Num z) l) as Hmem.
  { intros i v Hv.
    assert (In v l) as Hin.
    { apply (Permutation_in v Hp), list_elem_of_In, list_elem_of_lookup. eauto. }
    rewrite Forall_forall in Hall.
    destruct v as [|z]; [exfalso; apply (Hall NaN); [apply list_elem_of_In, Hin | reflexivity]|].
    eauto. }
  assert (forall z, In (Num z) l -> exists i, s !! i = Some (Num z)) as Hidx.
  { intros z Hz. apply list_elem_of_lookup, list_elem_of_In.
    apply (Permutation_in (Num z) (Permutation_sym Hp) Hz). }
  rewrite El in Hall.
  destruct (fold_min_spec rest x Hall) as (a & Ha & Hina & Hlow).
  destruct (fold_max_spec rest x Hall) as (c & Hc & Hinc & Hup).
  rewrite <- El in Hina, Hinc, Hlow, Hup. rewrite Ha, Hc. split.
  - destruct (lookup_lt_is_Some_2 s 0) as [v Hv]; [lia|].
    destruct (Hmem _ _ Hv) as (z & -> & Hz).
    destruct (Hidx a Hina) as [i Hi].
    rewrite Hv. do 2 f_equal.
    assert (a <= z) by (apply Hlow, Hz).
    destruct i as [|i]; [congruence|].
    pose proof (sorted_lookup_le s 0 (S i) _ _ Hs ltac:(lia) Hv Hi) as Hle.
    simpl in Hle. lia.
  - destruct (lookup_lt_is_Some_2 s (length l - 1)) as [v Hv]; [lia|].
    destruct (Hmem _ _ Hv) as (z & -> & Hz).
    destruct (Hidx c Hinc) as [i Hi].
    rewrite Hv. do 2 f_equal.
    assert (z <= c) by (apply Hup, Hz).
    pose proof (lookup_lt_Some _ _ _ Hi) as Hlt.
    destruct (Nat.eq_dec i (length l - 1)%nat) as [->|Hne]; [congruence|].
    pose proof (sorted_lookup_le s i (length l - 1)%nat _ _ Hs ltac:(lia) Hi Hv) as Hle.
    simpl in Hle. lia.
Qed.

(** X14: the ends of the range.  On an array of samples that is not empty
    and holds no [NaN], [pct(arr, 100)] is the largest sample, because the
    index [n] is brought back to [n - 1] by line 99, and [pct(arr, 0)] is
    the smallest: the values [Math.max(...arr)] and [Math.min(...arr)] of
    [printSummary]. *)
Theorem pct_at_the_ends (w : World) (arr : loc) (x : num) (rest : list num) :
  deref w arr = x :: rest ->
  Forall (fun y => y <> NaN) (deref w arr) ->
  Z.of_nat (length (deref w arr)) < 2 ^ 32 ->
  fst (pct arr 100 w) = Normal (VNum (fold_left math_max rest x))
  /\ fst (pct arr 0 w) = Normal (VNum (fold_left math_min rest x)).
Proof.
  intros El Hall Hlen.
  destruct (sorted_ends (deref w arr) x rest El Hall) as [Hmin Hmax].
  assert (0 < length (deref w arr))%nat as Hpos by (rewrite El; simpl; lia).
  rewrite !percentile_of_store. unfold percentile.
  destruct (deref w arr) as [|y l'] eqn:E; [discriminate|].
  rewrite <- E in *. cbn zeta. rewrite sort_by_length. split.
  - rewrite pct_index_100 by lia.
    replace (Z.min (Z.of_nat (length (deref w arr)))
                   (Z.of_nat (length (deref w arr)) - 1))
      with (Z.of_nat (length (deref w arr) - 1)) by lia.
    unfold element. destruct (Z.ltb_spec (Z.of_nat (length (deref w arr) - 1)) 0);
      [lia|].
    rewrite Nat2Z.id, Hmax. reflexivity.
  - rewrite pct_index_0.
    replace (Z.min 0 (Z.of_nat (length (deref w arr)) - 1)) with 0 by lia.
    unfold element. change (0 <? 0) with false. cbv iota.
    change (Z.to_nat 0) with 0%nat. rewrite Hmin. reflexivity.
Qed.

Lemma pct_at_the_ends_witness :
  fst (pct 0%nat 100 ten_samples_unordered) = Normal (VNum (Num 100))
  /\ fst (pct 0%nat 0 ten_samples_unordered) = Normal (VNum (Num 10)).
Proof.
  destruct (pct_at_the_ends ten_samples_unordered 0%nat (Num 100)
              (List.map Num [20; 30; 40; 50; 60; 70; 80; 90; 10]))
    as [H1 H2].
  - vm_compute. reflexivity.
  - vm_compute. repeat constructor; discriminate.
  - vm_compute. reflexivity.
  - rewrite H1, H2. vm_compute. split; reflexivity.
Defined.

(** ** Batches in which every write rejects *)

(** X15: while every awaited write rejects, a summary follows every batch.
    With [n > 0] clients, if the promises of all the writes of a batch
    reject, only quiet callbacks run during its awaits, and [sent] is a
    multiple of [5 * n] before it (as it is at the start, when it is 0),
    then [sent] is the same after the batch, [errors] has grown by [n], and
    the callback of the write timer ends with [printSummary]. *)
Theorem outage_prints_every_batch (n : Z) (oracle : nat -> awaited) (w : World) :
  0 < n ->
  quiet_awaits oracle (Z.to_nat n) = true ->
  rejections oracle (Z.to_nat n) = Z.to_nat n ->
  (n * 5 | sent w) ->
  let w1 := exec (write_loop (Num n) oracle) w in
  sent w1 = sent w /\ errors w1 = errors w + n
  /\ tick (Num n) oracle w = printSummary w1.
Proof.
  intros Hn Hquiet Hr Hd. cbn zeta.
  destruct (write_loop_exact (Num n) oracle w Hquiet) as [Hs He].
  cbn [turns] in Hs, He. rewrite Hr in Hs, He.
  rewrite Nat.sub_diag in Hs. rewrite Z2Nat.id in He by lia.
  assert (sent (exec (write_loop (Num n) oracle) w) = sent w) as Hs' by lia.
  split; [exact Hs'|]. split; [exact He|].
  rewrite tick_eq. cbn zeta.
  assert (summary_due (Num n) (exec (write_loop (Num n) oracle) w) = true) as ->.
  { apply summary_due_iff. exists n. rewrite Hs'. repeat split; [lia | exact Hd]. }
  reflexivity.
Qed.

Lemma outage_prints_every_batch_witness :
  length (stdout (exec (tick (Num 3) (always (Rejected (Rejection "fetch failed"))))
                    initial)) = 1%nat.
Proof.
  destruct (outage_prints_every_batch 3
              (always (Rejected (Rejection "fetch failed"))) initial)
    as (_ & _ & H).
  - lia.
  - vm_compute. reflexivity.
  - vm_compute. reflexivity.
  - exists 0. reflexivity.
  - unfold exec. rewrite H. vm_compute. reflexivity.
Defined.

(** X16: without clients the write timer does nothing.  When the client
    count is 0, the callback of the write timer writes nothing and prints
    nothing, whatever [sent] is: the test of line 86 takes a remainder by
    zero, which is [NaN] and not [=== 0].  Any number of such callbacks
    leaves the world as it is. *)
Theorem no_client_no_batch (oracles : list (nat -> awaited)) (w : World) :
  run_tasks (Num 0) (List.map WriteTimer oracles) w = (Normal tt, w).
Proof.
  assert (forall oracle w0, tick (Num 0) oracle w0 = (Normal tt, w0)) as Htick.
  { intros oracle w0. rewrite tick_eq. cbn zeta.
    assert (exec (write_loop (Num 0) oracle) w0 = w0) as -> by reflexivity.
    assert (summary_due (Num 0) w0 = false) as ->; [|reflexivity].
    destruct (summary_due (Num 0) w0) eqn:E; [|reflexivity].
    apply summary_due_iff in E. destruct E as (m & Hm & Hne & _).
    inversion Hm. congruence. }
  revert w. induction oracles as [|o oracles IH]; intros w; [reflexivity|].
  cbn [List.map run_tasks run_task].
  rewrite (bind_normal (tick (Num 0) o) _ w tt);
    [|rewrite Htick; reflexivity].
  unfold exec. rewrite Htick. apply IH.
Qed.
